(** * SASAA: the reward / withdrawal transaction engine

    A shallow embedding of the ledger-touching routes of [src/server.js]
    ([POST /api/surveys/:id/submit], [POST /api/withdrawals]), of the
    balance function of [src/schema.sql] and of the stored procedures of
    [src/unnamed/part_001] ([get_user_balance], [check_referral_bonus]),
    followed by the listing route [GET /api/surveys], the views
    [admin_stats] and [user_dashboard], the remaining procedures of part_001
    ([can_user_complete_survey], [process_survey_reward],
    [generate_unique_referral_code], [set_referral_code]) and the withdrawal
    route of the second server of [src/unnamed/part_000].

    Conventions of the embedding.
    - The PostgreSQL database is a record of tables; a table is the list of
      its rows in insertion order.  Columns that no modelled statement reads
      or writes (surrogate UUID keys of the append-only tables, their
      [DEFAULT NOW()] timestamps, [password_hash], ...) are left out.
    - [DECIMAL(10,2)] amounts are integers counting euro cents ([5.00] is
      [500]).  The route compares [parseFloat] images of such amounts; on
      two-decimal values in range the comparison agrees with the one on
      cents.
    - A route body is a computation in a state-and-error monad over the
      database; [run_tx] is the [BEGIN] ... [COMMIT] / [ROLLBACK] bracket of
      the route's [try] / [catch].
    - What the environment supplies to a request ([Date.now()], SQL [NOW()],
      the value drawn by [uuid_generate_v4()]) is part of the request.
    - Requests arrive well-typed: ids parse, [responses] is an object;
      [users.balance] is never NULL (no statement writes NULL there).
    - The statements of the embedding raise on the constraints listed in
      [pg_constraint].  What PostgreSQL refuses beyond them (a text longer
      than its [VARCHAR] column or holding a NUL character, an origin that
      is no [INET] value, an id outside [INTEGER], an amount outside
      [DECIMAL(10,2)]) is excluded by hypotheses, built from the predicates
      of section "Values that fit their columns", in the statements that
      conclude that a request is accepted.
    - A transaction runs alone on the database.  Several requests are a list
      handled in order; a statement about concurrent requests is stated over
      every such order. *)

From Stdlib Require Import List ZArith NArith String Ascii Bool Lia.
From Stdlib Require Import DecimalString DecimalN.
From Stdlib Require Import Sorted Permutation.
Import ListNotations.

Local Open Scope string_scope.
Local Open Scope list_scope.
Local Open Scope Z_scope.

(** ** Data model (src/schema.sql) *)

Definition uuid := nat.
Definition cents := Z.

Record user := mkUser {
  u_id : uuid;
  u_email : string;
  u_balance : cents;
  u_referral_code : string;
  u_ip_address : string;
  u_user_agent : string;
  u_created_at : N;
  u_updated_at : N
}.

Record survey := mkSurvey {
  s_id : Z;
  s_survey_key : string;
  s_reward_amount : cents;
  s_is_active : bool
}.

Record question := mkQuestion {
  q_id : Z;
  q_survey_id : Z;
  q_question_key : string
}.

(** A submitted answer: an array of selected options, JSON [null], or any
    other value, by the text the driver binds for it. *)
Inductive answer :=
| AText (s : string)
| AOptions (l : list string)
| ANull.

Record response := mkResponse {
  r_user_id : uuid;
  r_survey_id : Z;
  r_question_id : Z;
  r_answer_text : option string;
  r_answer_options : option (list string)
}.

Record completion := mkCompletion {
  c_user_id : uuid;
  c_survey_id : Z;
  c_reward_paid : bool
}.

Inductive tx_type := survey_reward | referral_bonus | withdrawal_request | withdrawal_completed.
Inductive tx_status := pending | completed | failed | cancelled.

Record transaction := mkTransaction {
  t_user_id : uuid;
  t_type : tx_type;
  t_amount : cents;
  t_description : string;
  t_reference_id : option string;
  t_status : tx_status;
  t_paypal_email : option string
}.

Record withdrawal := mkWithdrawal {
  w_user_id : uuid;
  w_amount : cents;
  w_paypal_email : string;
  w_status : tx_status
}.

(** The JSON document stored in [activity_logs.metadata]. *)
Inductive metadata :=
| MSurvey (surveyId : Z) (responses : list (string * answer))
| MWithdrawal (amount : cents) (paypalEmail : option string).

Record activity := mkActivity {
  a_user_id : uuid;
  a_activity_type : string;
  a_description : string;
  a_ip_address : string;
  a_user_agent : option string;
  a_metadata : metadata
}.

Record referral := mkReferral {
  ref_referrer_id : uuid;
  ref_referred_user_id : uuid
}.

Record db := mkDb {
  users : list user;
  surveys : list survey;
  survey_questions : list question;
  user_survey_responses : list response;
  user_completed_surveys : list completion;
  transactions : list transaction;
  withdrawal_requests : list withdrawal;
  activity_logs : list activity;
  referrals : list referral;
  (** [system_config]: key and value, the value already cast
      ([value::INTEGER], [value::DECIMAL] in cents). *)
  system_config : list (string * Z)
}.

Definition set_users (us : list user) (d : db) : db :=
  mkDb us (surveys d) (survey_questions d) (user_survey_responses d)
       (user_completed_surveys d) (transactions d) (withdrawal_requests d)
       (activity_logs d) (referrals d) (system_config d).

Definition set_surveys (ss : list survey) (d : db) : db :=
  mkDb (users d) ss (survey_questions d) (user_survey_responses d)
       (user_completed_surveys d) (transactions d) (withdrawal_requests d)
       (activity_logs d) (referrals d) (system_config d).

Definition set_user_survey_responses (rs : list response) (d : db) : db :=
  mkDb (users d) (surveys d) (survey_questions d) rs
       (user_completed_surveys d) (transactions d) (withdrawal_requests d)
       (activity_logs d) (referrals d) (system_config d).

Definition set_user_completed_surveys (cs : list completion) (d : db) : db :=
  mkDb (users d) (surveys d) (survey_questions d) (user_survey_responses d)
       cs (transactions d) (withdrawal_requests d)
       (activity_logs d) (referrals d) (system_config d).

Definition set_transactions (ts : list transaction) (d : db) : db :=
  mkDb (users d) (surveys d) (survey_questions d) (user_survey_responses d)
       (user_completed_surveys d) ts (withdrawal_requests d)
       (activity_logs d) (referrals d) (system_config d).

Definition set_withdrawal_requests (ws : list withdrawal) (d : db) : db :=
  mkDb (users d) (surveys d) (survey_questions d) (user_survey_responses d)
       (user_completed_surveys d) (transactions d) ws
       (activity_logs d) (referrals d) (system_config d).

Definition set_activity_logs (ls : list activity) (d : db) : db :=
  mkDb (users d) (surveys d) (survey_questions d) (user_survey_responses d)
       (user_completed_surveys d) (transactions d) (withdrawal_requests d)
       ls (referrals d) (system_config d).

(** ** Errors

    The routes answer a failure with status 400 and the message of the
    exception; the messages thrown by the routes themselves are named, every
    error raised by PostgreSQL is a [StorageFailure] tagged with the
    constraint that was violated. *)

Inductive pg_constraint :=
| users_pkey                        (* users.id PRIMARY KEY *)
| users_referral_code_key           (* users.referral_code UNIQUE *)
| user_survey_responses_key         (* UNIQUE(user_id, survey_id, question_id) *)
| user_completed_surveys_key        (* UNIQUE(user_id, survey_id) *)
| withdrawal_paypal_not_null        (* withdrawal_requests.paypal_email NOT NULL *)
| transactions_amount_not_null.     (* transactions.amount NOT NULL *)

Inductive error :=
| AlreadyCompleted      (* 'Ya has completado esta encuesta' *)
| AccountNotFound       (* 'Usuario no encontrado' *)
| InsufficientBalance   (* 'Saldo insuficiente' *)
| BelowMinimum          (* 'El monto minimo de retiro es 5 EUR' *)
| StorageFailure (c : pg_constraint).

(** ** The transaction monad *)

Definition Tx (A : Type) : Type := db -> error + (A * db).

Definition ret {A} (a : A) : Tx A := fun d => inr (a, d).

Definition throw {A} (e : error) : Tx A := fun _ => inl e.

Definition bind {A B} (m : Tx A) (k : A -> Tx B) : Tx B :=
  fun d => match m d with
           | inl e => inl e
           | inr (a, d') => k a d'
           end.

Notation "x <- m ;; k" := (bind m (fun x => k))
  (at level 61, m at next level, right associativity).
Notation "m ;;; k" := (bind m (fun _ => k))
  (at level 61, right associativity).

(** A read-only query. *)
Definition query {A} (f : db -> A) : Tx A := fun d => inr (f d, d).

(** A statement that always succeeds. *)
Definition exec (f : db -> db) : Tx unit := fun d => inr (tt, f d).

(** [BEGIN; body; COMMIT], with [ROLLBACK] to the state at [BEGIN] when the
    body throws. *)
Definition run_tx {A} (body : Tx A) (d : db) : (error + A) * db :=
  match body d with
  | inl e => (inl e, d)
  | inr (a, d') => (inr a, d')
  end.

(** ** JavaScript string helpers used by the routes *)

(** [String(n)] / template interpolation of a non-negative integer. *)
Definition dec (n : N) : string := NilEmpty.string_of_uint (N.to_uint n).

(** Interpolation of a (possibly negative) integer, as SQL's [||] does. *)
Definition dec_int (z : Z) : string := NilEmpty.string_of_int (Z.to_int z).

(** [s.replace(/\./g, '')] *)
Fixpoint remove_dots (s : string) : string :=
  match s with
  | EmptyString => EmptyString
  | String c r => if Ascii.eqb c "."%char then remove_dots r
                  else String c (remove_dots r)
  end.

(** [s.slice(-n)]: the last [n] characters (all of [s] when shorter). *)
Definition slice_last (n : nat) (s : string) : string :=
  substring (String.length s - n) n s.

(** The text JavaScript prints for a two-decimal amount held in cents:
    [500] is "5", [550] is "5.5", [505] is "5.05". *)
Definition js_amount (c : cents) : string :=
  let a := Z.abs c in
  let f := a mod 100 in
  let sign := if c <? 0 then "-" else "" in
  let frac :=
    if f =? 0 then ""
    else String.append "."
           (if f mod 10 =? 0 then dec (Z.to_N (f / 10))
            else if f <? 10 then String.append "0" (dec (Z.to_N f))
            else dec (Z.to_N f)) in
  String.append sign (String.append (dec (Z.to_N (a / 100))) frac).

(** ** Ledger sums *)

Definition tx_status_eqb (a b : tx_status) : bool :=
  match a, b with
  | pending, pending | completed, completed
  | failed, failed | cancelled, cancelled => true
  | _, _ => false
  end.

Definition tx_type_eqb (a b : tx_type) : bool :=
  match a, b with
  | survey_reward, survey_reward | referral_bonus, referral_bonus
  | withdrawal_request, withdrawal_request
  | withdrawal_completed, withdrawal_completed => true
  | _, _ => false
  end.

Definition is_credit (k : tx_type) : bool :=
  match k with survey_reward | referral_bonus => true | _ => false end.

Definition is_withdrawal (k : tx_type) : bool :=
  match k with withdrawal_request | withdrawal_completed => true | _ => false end.

(** [CASE WHEN transaction_type IN ('survey_reward','referral_bonus') THEN amount
         WHEN transaction_type IN ('withdrawal_request','withdrawal_completed') THEN -amount
         ELSE 0 END] *)
Definition case_amount (t : transaction) : Z :=
  if is_credit (t_type t) then t_amount t
  else if is_withdrawal (t_type t) then - t_amount t
  else 0.

Definition sum (l : list Z) : Z := fold_right Z.add 0 l.

(** The sub-select of [UPDATE users SET balance = (...)] in the submit
    route (server.js 256-264):
    [COALESCE(SUM(CASE ...), 0) FROM transactions
     WHERE user_id = $1 AND status = 'completed']. *)
Definition completed_ledger_sum (ts : list transaction) (userId : uuid) : cents :=
  sum (map case_amount
         (filter (fun t => Nat.eqb (t_user_id t) userId
                           && tx_status_eqb (t_status t) completed) ts)).

Module Schema.
(** [get_user_balance] of src/schema.sql (139-158):
    [COALESCE(SUM(CASE ...), 0) FROM transactions WHERE user_id = user_uuid],
    with no condition on [status]. *)
Definition get_user_balance (ts : list transaction) (user_uuid : uuid) : cents :=
  sum (map case_amount
         (filter (fun t => Nat.eqb (t_user_id t) user_uuid) ts)).
End Schema.

(** ** SQL statements of the routes *)

Definition find_user_by_email (email : string) (d : db) : option user :=
  find (fun u => (u_email u =? email)%string) (users d).

Definition find_user (userId : uuid) (d : db) : option user :=
  find (fun u => Nat.eqb (u_id u) userId) (users d).

(** The columns set by [ON CONFLICT (email) DO UPDATE SET ip_address = $2,
    user_agent = $3, updated_at = NOW()]. *)
Definition refresh (ip ua : string) (now : N) (u : user) : user :=
  mkUser (u_id u) (u_email u) (u_balance u) (u_referral_code u)
         ip ua (u_created_at u) now.

(** [INSERT INTO users (email, ip_address, user_agent, referral_code)
     VALUES ($1,$2,$3,$4)
     ON CONFLICT (email) DO UPDATE SET ... RETURNING id]
    (server.js 183-191).  The arbiter index is the one on [email]; a clash on
    the primary key or on [referral_code] is not handled by the clause and
    raises. *)
Definition upsert_user (email ip ua code : string) (fresh : uuid) (now : N)
  : Tx uuid :=
  fun d =>
    match find_user_by_email email d with
    | Some u =>
        inr (u_id u,
             set_users (map (fun v => if (u_email v =? email)%string
                                      then refresh ip ua now v else v)
                            (users d)) d)
    | None =>
        if existsb (fun u => Nat.eqb (u_id u) fresh) (users d)
        then inl (StorageFailure users_pkey)
        else if existsb (fun u => (u_referral_code u =? code)%string) (users d)
        then inl (StorageFailure users_referral_code_key)
        else inr (fresh,
                  set_users (users d ++ [mkUser fresh email 0 code ip ua now now]) d)
    end.

(** [SELECT id FROM user_completed_surveys WHERE user_id = $1 AND survey_id = $2],
    read as [rows.length > 0]. *)
Definition has_completed (userId : uuid) (surveyId : Z) (d : db) : bool :=
  existsb (fun c => Nat.eqb (c_user_id c) userId && (c_survey_id c =? surveyId))
          (user_completed_surveys d).

(** [SELECT id FROM survey_questions WHERE survey_id = $1 AND question_key = $2],
    read as [rows[0]]. *)
Definition select_question (surveyId : Z) (questionKey : string) (d : db)
  : option question :=
  find (fun q => (q_survey_id q =? surveyId)
                 && (q_question_key q =? questionKey)%string)
       (survey_questions d).

Definition has_response (userId : uuid) (surveyId questionId : Z) (d : db) : bool :=
  existsb (fun r => Nat.eqb (r_user_id r) userId
                    && (r_survey_id r =? surveyId)
                    && (r_question_id r =? questionId))
          (user_survey_responses d).

(** [INSERT INTO user_survey_responses ...], under
    [UNIQUE(user_id, survey_id, question_id)]. *)
Definition insert_response (r : response) : Tx unit :=
  fun d =>
    if has_response (r_user_id r) (r_survey_id r) (r_question_id r) d
    then inl (StorageFailure user_survey_responses_key)
    else inr (tt, set_user_survey_responses (user_survey_responses d ++ [r]) d).

(** [SELECT survey_key, reward_amount FROM surveys WHERE id = $1]. *)
Definition select_survey (surveyId : Z) (d : db) : option survey :=
  find (fun s => s_id s =? surveyId) (surveys d).

(** [INSERT INTO user_completed_surveys (user_id, survey_id, reward_paid)],
    under [UNIQUE(user_id, survey_id)]. *)
Definition insert_completed (c : completion) : Tx unit :=
  fun d =>
    if has_completed (c_user_id c) (c_survey_id c) d
    then inl (StorageFailure user_completed_surveys_key)
    else inr (tt, set_user_completed_surveys (user_completed_surveys d ++ [c]) d).

Definition insert_transaction (t : transaction) : Tx unit :=
  exec (fun d => set_transactions (transactions d ++ [t]) d).

Definition set_balance (b : cents) (u : user) : user :=
  mkUser (u_id u) (u_email u) b (u_referral_code u)
         (u_ip_address u) (u_user_agent u) (u_created_at u) (u_updated_at u).

(** [UPDATE users SET balance = (SELECT ... status = 'completed') WHERE id = $1].
    The column is [DECIMAL(10,2)]: PostgreSQL raises on a sum outside that
    type, which this statement does not; [fits_decimal_10_2] of the sum is a
    hypothesis where a submission is concluded to be accepted. *)
Definition update_user_balance (userId : uuid) : Tx unit :=
  exec (fun d =>
          set_users (map (fun u => if Nat.eqb (u_id u) userId
                                   then set_balance (completed_ledger_sum (transactions d) userId) u
                                   else u)
                         (users d)) d).

Definition insert_activity (a : activity) : Tx unit :=
  exec (fun d => set_activity_logs (activity_logs d ++ [a]) d).

(** [INSERT INTO withdrawal_requests ...]; [paypal_email] is [NOT NULL].
    It is also [VARCHAR(255)]: PostgreSQL raises on a longer address, which
    this statement does not; [withdrawal_fits] is a hypothesis where a
    request is concluded to be accepted. *)
Definition insert_withdrawal (userId : uuid) (amount : cents)
           (paypalEmail : option string) : Tx unit :=
  fun d =>
    match paypalEmail with
    | None => inl (StorageFailure withdrawal_paypal_not_null)
    | Some p =>
        inr (tt, set_withdrawal_requests
                   (withdrawal_requests d ++ [mkWithdrawal userId amount p pending]) d)
    end.

(** [SELECT balance FROM users WHERE id = $1], read as [rows[0].balance]. *)
Definition select_balance (userId : uuid) (d : db) : option cents :=
  option_map u_balance (find_user userId d).

(** ** POST /api/surveys/:id/submit (server.js 163-298) *)

Record submission := mkSubmission {
  sb_survey_id : Z;                        (* req.params.id, bound to INTEGER *)
  sb_responses : list (string * answer);   (* Object.entries(req.body.responses) *)
  sb_user_email : option string;           (* req.body.userEmail *)
  sb_user_ip : string;                     (* x-forwarded-for || remoteAddress || req.ip *)
  sb_user_agent : string;                  (* req.headers['user-agent'] || '' *)
  sb_now_email : N;                        (* Date.now() read for tempEmail *)
  sb_now_code : N;                         (* Date.now() read for referralCode *)
  sb_sql_now : N;                          (* NOW() *)
  sb_uuid : uuid                           (* uuid_generate_v4() for users.id *)
}.

(** The body of the 200 answer: [{ success: true, userId, responsesCount }]. *)
Record submit_ok := mkSubmitOk {
  ok_user_id : uuid;
  ok_responses_count : nat
}.

(** [`temp_${Date.now()}_${userIp.replace(/\./g, '')}@temp.com`] *)
Definition synth_email (now : N) (userIp : string) : string :=
  "temp_" ++ dec now ++ "_" ++ remove_dots userIp ++ "@temp.com".

(** [userEmail || `temp_...`]: a missing or empty [userEmail] is falsy. *)
Definition tempEmail (rq : submission) : string :=
  match sb_user_email rq with
  | Some e => if (e =? "")%string
              then synth_email (sb_now_email rq) (sb_user_ip rq) else e
  | None => synth_email (sb_now_email rq) (sb_user_ip rq)
  end.

(** [`REF${Date.now().toString().slice(-6)}`] *)
Definition referralCode (rq : submission) : string :=
  "REF" ++ slice_last 6 (dec (sb_now_code rq)).

Definition response_row (userId : uuid) (surveyId : Z) (q : question)
           (a : answer) : response :=
  mkResponse userId surveyId (q_id q)
    (match a with AText s => Some s | AOptions _ | ANull => None end)
    (match a with AOptions l => Some l | AText _ | ANull => None end).

(** The loop [for (const [questionKey, answer] of Object.entries(responses))];
    its value is [savedResponses]. *)
Fixpoint save_responses (userId : uuid) (surveyId : Z)
         (entries : list (string * answer)) : Tx (list (string * answer)) :=
  match entries with
  | [] => ret []
  | (questionKey, ans) :: rest =>
      questionResult <- query (select_question surveyId questionKey) ;;
      match questionResult with
      | Some q =>
          insert_response (response_row userId surveyId q ans) ;;;
          saved <- save_responses userId surveyId rest ;;
          ret ((questionKey, ans) :: saved)
      | None => save_responses userId surveyId rest
      end
  end.

Definition reward_transaction (userId : uuid) (s : survey) : transaction :=
  mkTransaction userId survey_reward (s_reward_amount s)
    ("Recompensa por completar encuesta: " ++ s_survey_key s)
    (Some (s_survey_key s)) completed None.

Definition survey_activity (rq : submission) (userId : uuid) (s : survey)
           (saved : list (string * answer)) : activity :=
  mkActivity userId "survey_completed"
    ("Completó encuesta: " ++ s_survey_key s)
    (sb_user_ip rq) (Some (sb_user_agent rq))
    (MSurvey (sb_survey_id rq) saved).

Definition submit_body (rq : submission) : Tx submit_ok :=
  let surveyId := sb_survey_id rq in
  userId <- upsert_user (tempEmail rq) (sb_user_ip rq) (sb_user_agent rq)
                        (referralCode rq) (sb_uuid rq) (sb_sql_now rq) ;;
  existing <- query (has_completed userId surveyId) ;;
  if existing : bool then throw AlreadyCompleted
  else
    savedResponses <- save_responses userId surveyId (sb_responses rq) ;;
    surveyResult <- query (select_survey surveyId) ;;
    match surveyResult with
    | Some s =>
        insert_completed (mkCompletion userId surveyId true) ;;;
        insert_transaction (reward_transaction userId s) ;;;
        update_user_balance userId ;;;
        insert_activity (survey_activity rq userId s savedResponses)
    | None => ret tt
    end ;;;
    ret (mkSubmitOk userId (List.length savedResponses)).

Definition submitSurvey (rq : submission) (d : db) : (error + submit_ok) * db :=
  run_tx (submit_body rq) d.

(** ** POST /api/withdrawals (server.js 301-367) *)

Record withdrawal_body := mkWithdrawalBody {
  wb_user_id : uuid;                (* req.body.userId *)
  wb_amount : cents;                (* req.body.amount *)
  wb_paypal_email : option string;  (* req.body.paypalEmail *)
  wb_user_ip : string
}.

(** The floor written in the route: [if (amount < 5)]. *)
Definition minimum_withdrawal : cents := 500.

Definition withdrawal_transaction (rq : withdrawal_body) : transaction :=
  mkTransaction (wb_user_id rq) withdrawal_request (wb_amount rq)
    "Solicitud de retiro vía PayPal" None pending (wb_paypal_email rq).

Definition withdrawal_activity (rq : withdrawal_body) : activity :=
  mkActivity (wb_user_id rq) "withdrawal_requested"
    ("Solicitó retiro de " ++ js_amount (wb_amount rq) ++ " EUR")
    (wb_user_ip rq) None
    (MWithdrawal (wb_amount rq) (wb_paypal_email rq)).

Definition withdraw_body (rq : withdrawal_body) : Tx unit :=
  balanceResult <- query (select_balance (wb_user_id rq)) ;;
  match balanceResult with
  | None => throw AccountNotFound
  | Some currentBalance =>
      if currentBalance <? wb_amount rq then throw InsufficientBalance
      else if wb_amount rq <? minimum_withdrawal then throw BelowMinimum
      else
        insert_withdrawal (wb_user_id rq) (wb_amount rq) (wb_paypal_email rq) ;;;
        insert_transaction (withdrawal_transaction rq) ;;;
        insert_activity (withdrawal_activity rq)
  end.

Definition requestWithdrawal (rq : withdrawal_body) (d : db) : (error + unit) * db :=
  run_tx (withdraw_body rq) d.

(** ** Stored procedures of src/unnamed/part_001 *)

Module Schema001.

(** [SUM(amount)] over the selected rows: NULL when no row is selected. *)
Definition sql_sum (l : list Z) : option Z :=
  match l with [] => None | _ => Some (sum l) end.

(** SQL subtraction: NULL when either operand is NULL. *)
Definition sql_sub (a b : option Z) : option Z :=
  match a, b with Some x, Some y => Some (x - y) | _, _ => None end.

Definition coalesce (a : option Z) (b : Z) : Z :=
  match a with Some x => x | None => b end.

Definition completed_of (ts : list transaction) (user_uuid : uuid)
           (kind : tx_type -> bool) : list Z :=
  map t_amount
      (filter (fun t => Nat.eqb (t_user_id t) user_uuid
                        && kind (t_type t)
                        && tx_status_eqb (t_status t) completed) ts).

(** [get_user_balance] (part_001 245-264):
    [COALESCE((SELECT SUM(amount) ... credits, completed)
              - (SELECT SUM(amount) ... withdrawals, completed), 0.00)]. *)
Definition get_user_balance (ts : list transaction) (user_uuid : uuid) : cents :=
  coalesce (sql_sub (sql_sum (completed_of ts user_uuid is_credit))
                    (sql_sum (completed_of ts user_uuid is_withdrawal))) 0.

(** [SELECT value::... FROM system_config WHERE key = k]: NULL when absent. *)
Definition config_value (k : string) (d : db) : option Z :=
  option_map snd (find (fun kv => (fst kv =? k)%string) (system_config d)).

(** [SELECT COUNT( * ) FROM referrals WHERE referrer_id = user_uuid]. *)
Definition referral_count (user_uuid : uuid) (d : db) : Z :=
  Z.of_nat (List.length
              (filter (fun r => Nat.eqb (ref_referrer_id r) user_uuid) (referrals d))).

(** [EXISTS(SELECT 1 FROM transactions WHERE user_id = user_uuid
     AND transaction_type = 'referral_bonus' AND status = 'completed')]. *)
Definition already_received (user_uuid : uuid) (d : db) : bool :=
  existsb (fun t => Nat.eqb (t_user_id t) user_uuid
                    && tx_type_eqb (t_type t) referral_bonus
                    && tx_status_eqb (t_status t) completed)
          (transactions d).

Definition bonus_transaction (user_uuid : uuid) (bonus_threshold : Z)
           (bonus_amount : cents) : transaction :=
  mkTransaction user_uuid referral_bonus bonus_amount
    ("Bonus por alcanzar " ++ dec_int bonus_threshold ++ " referidos")
    (Some ("referral_bonus_" ++ dec_int bonus_threshold)%string) completed None.

(** [UPDATE users SET balance = get_user_balance(user_uuid) WHERE id = user_uuid].
    The trigger [trigger_users_updated_at] of part_001 also stamps
    [updated_at] on this UPDATE; the column is left as it is here, and no
    statement about the procedures reads it. *)
Definition update_balance (user_uuid : uuid) : Tx unit :=
  exec (fun d =>
          set_users (map (fun u => if Nat.eqb (u_id u) user_uuid
                                   then set_balance (get_user_balance (transactions d) user_uuid) u
                                   else u)
                         (users d)) d).

(** [check_referral_bonus] (part_001 329-367).  A NULL threshold makes the
    [IF] condition NULL or false, so the branch is not taken; a NULL bonus
    amount violates [transactions.amount NOT NULL].  For an id without
    account the INSERT would also fail on the foreign key of
    [transactions.user_id], which is not raised here: the statements about
    the procedure are about existing accounts. *)
Definition check_referral_bonus (user_uuid : uuid) : Tx bool :=
  bonus_threshold <- query (config_value "referral_bonus_threshold") ;;
  bonus_amount <- query (config_value "referral_bonus_amount") ;;
  referral_count <- query (referral_count user_uuid) ;;
  already_received <- query (already_received user_uuid) ;;
  match bonus_threshold with
  | Some threshold =>
      if (threshold <=? referral_count) && negb already_received then
        match bonus_amount with
        | Some amount =>
            insert_transaction (bonus_transaction user_uuid threshold amount) ;;;
            update_balance user_uuid ;;;
            ret true
        | None => throw (StorageFailure transactions_amount_not_null)
        end
      else ret false
  | None => ret false
  end.

(** A call of the function as one statement of its own. *)
Definition call_check_referral_bonus (user_uuid : uuid) (d : db)
  : (error + bool) * db :=
  run_tx (check_referral_bonus user_uuid) d.

End Schema001.

(** ** The balance of the specification

    The balance of the specification (section 4.2), in the specification's
    words: the sum over the account's entries of the signed amount, where
    pending entries (pending withdrawal debits in particular) are counted
    and failed or cancelled entries are excluded.  The sign of an entry is
    the one the code gives it ([case_amount]): the table stores withdrawal
    amounts unsigned. *)

Definition spec_counted (st : tx_status) : bool :=
  match st with
  | pending | completed => true
  | failed | cancelled => false
  end.

Definition spec_balance (ts : list transaction) (account : uuid) : cents :=
  sum (map case_amount
         (filter (fun t => Nat.eqb (t_user_id t) account
                           && spec_counted (t_status t)) ts)).

(** The signed sum of the account's entries whose status satisfies [p]. *)
Definition ledger_sum_where (p : tx_status -> bool)
           (ts : list transaction) (account : uuid) : cents :=
  sum (map case_amount
         (filter (fun t => Nat.eqb (t_user_id t) account && p (t_status t)) ts)).

Definition is_pending (st : tx_status) : bool := tx_status_eqb st pending.

Definition is_failed_or_cancelled (st : tx_status) : bool :=
  match st with failed | cancelled => true | _ => false end.

(** ** Auxiliary definitions for the statements *)

(** The answer of the withdrawal route as a function of the row read by
    [SELECT balance FROM users] and of the request alone. *)
Definition withdrawal_decision (row : option cents) (rq : withdrawal_body)
  : error + unit :=
  match row with
  | None => inl AccountNotFound
  | Some currentBalance =>
      if currentBalance <? wb_amount rq then inl InsufficientBalance
      else if wb_amount rq <? minimum_withdrawal then inl BelowMinimum
      else match wb_paypal_email rq with
           | None => inl (StorageFailure withdrawal_paypal_not_null)
           | Some _ => inr tt
           end
  end.

(** The three rows a committed withdrawal appends. *)
Definition withdrawal_writes (rq : withdrawal_body) (paypal : string) (d : db) : db :=
  mkDb (users d) (surveys d) (survey_questions d) (user_survey_responses d)
       (user_completed_surveys d)
       (transactions d ++ [withdrawal_transaction rq])
       (withdrawal_requests d
          ++ [mkWithdrawal (wb_user_id rq) (wb_amount rq) paypal pending])
       (activity_logs d ++ [withdrawal_activity rq])
       (referrals d) (system_config d).

(** Requests handled one after the other, each in its own transaction. *)
Fixpoint run_withdrawals (rqs : list withdrawal_body) (d : db)
  : list (error + unit) * db :=
  match rqs with
  | [] => ([], d)
  | rq :: rest =>
      let (r, d1) := requestWithdrawal rq d in
      let (rs, d2) := run_withdrawals rest d1 in
      (r :: rs, d2)
  end.

Fixpoint run_submissions (rqs : list submission) (d : db)
  : list (error + submit_ok) * db :=
  match rqs with
  | [] => ([], d)
  | rq :: rest =>
      let (r, d1) := submitSurvey rq d in
      let (rs, d2) := run_submissions rest d1 in
      (r :: rs, d2)
  end.

(** The amounts of the requests that were accepted. *)
Fixpoint accepted_total (rqs : list withdrawal_body) (rs : list (error + unit)) : Z :=
  match rqs, rs with
  | rq :: rqs', inr _ :: rs' => wb_amount rq + accepted_total rqs' rs'
  | _ :: rqs', inl _ :: rs' => accepted_total rqs' rs'
  | _, _ => 0
  end.

(** The account a submission is attributed to: the id returned by the
    [users] upsert, when the upsert succeeds. *)
Definition resolved_id (rq : submission) (d : db) : option uuid :=
  match upsert_user (tempEmail rq) (sb_user_ip rq) (sb_user_agent rq)
                    (referralCode rq) (sb_uuid rq) (sb_sql_now rq) d with
  | inr (userId, _) => Some userId
  | inl _ => None
  end.

(** The entries of a submission whose key names a question of the survey,
    with the question found. *)
Fixpoint matched_entries (surveyId : Z) (entries : list (string * answer))
         (d : db) : list (string * answer * question) :=
  match entries with
  | [] => []
  | (k, a) :: rest =>
      match select_question surveyId k d with
      | Some q => (k, a, q) :: matched_entries surveyId rest d
      | None => matched_entries surveyId rest d
      end
  end.

(** The row stored for a matched entry. *)
Definition matched_row (userId : uuid) (surveyId : Z)
           (m : string * answer * question) : response :=
  response_row userId surveyId (snd m) (snd (fst m)).

Definition is_completion_of (userId : uuid) (surveyId : Z) (c : completion) : bool :=
  Nat.eqb (c_user_id c) userId && (c_survey_id c =? surveyId).

(** A reward credit of the pair: a [survey_reward] entry of the account whose
    reference is the survey's key. *)
Definition is_reward_of (userId : uuid) (key : string) (t : transaction) : bool :=
  Nat.eqb (t_user_id t) userId
  && tx_type_eqb (t_type t) survey_reward
  && match t_reference_id t with
     | Some k => (k =? key)%string
     | None => false
     end.

Definition count_completions (userId : uuid) (surveyId : Z) (d : db) : nat :=
  List.length (filter (is_completion_of userId surveyId) (user_completed_surveys d)).

Definition count_rewards (userId : uuid) (key : string) (d : db) : nat :=
  List.length (filter (is_reward_of userId key) (transactions d)).

Definition has_responses_for (userId : uuid) (surveyId : Z) (d : db) : bool :=
  existsb (fun r => Nat.eqb (r_user_id r) userId && (r_survey_id r =? surveyId))
          (user_survey_responses d).

(** The state left by the answers loop of an accepted submission, on top of
    the state [d] left by the account upsert. *)
Definition answers_writes (rq : submission) (userId : uuid) (d : db) : db :=
  set_user_survey_responses
    (user_survey_responses d
       ++ map (matched_row userId (sb_survey_id rq))
              (matched_entries (sb_survey_id rq) (sb_responses rq) d)) d.

(** The rows written by the reward block of the submit route (server.js
    234-278) on top of the state [d] left by the answers loop. *)
Definition reward_writes (rq : submission) (userId : uuid) (s : survey)
           (saved : list (string * answer)) (d : db) : db :=
  mkDb (map (fun u => if Nat.eqb (u_id u) userId
                      then set_balance
                             (completed_ledger_sum
                                (transactions d ++ [reward_transaction userId s]) userId) u
                      else u)
            (users d))
       (surveys d) (survey_questions d) (user_survey_responses d)
       (user_completed_surveys d ++ [mkCompletion userId (sb_survey_id rq) true])
       (transactions d ++ [reward_transaction userId s])
       (withdrawal_requests d)
       (activity_logs d ++ [survey_activity rq userId s saved])
       (referrals d) (system_config d).

(** Foreign keys of the schema: [survey_questions.survey_id] and
    [user_completed_surveys.survey_id] reference [surveys(id)]. *)
Definition fk_survey_questions (d : db) : Prop :=
  forall q, In q (survey_questions d) -> select_survey (q_survey_id q) d <> None.

Definition fk_completed_surveys (d : db) : Prop :=
  forall c, In c (user_completed_surveys d) -> select_survey (c_survey_id c) d <> None.

(** The referral-bonus entries of an account, whatever their status. *)
Definition bonus_entries (user_uuid : uuid) (d : db) : list transaction :=
  filter (fun t => Nat.eqb (t_user_id t) user_uuid
                   && tx_type_eqb (t_type t) referral_bonus)
         (transactions d).


(** The characters of [s] all differ from the underscore. *)
Fixpoint no_underscore (s : string) : bool :=
  match s with
  | EmptyString => true
  | String c r => negb (Ascii.eqb c "_"%char) && no_underscore r
  end.

(** The requests the engine serves, and the states they lead to. *)
Inductive request :=
| Submit (rq : submission)
| Withdraw (rq : withdrawal_body).

Definition handle (r : request) (d : db) : db :=
  match r with
  | Submit rq => snd (submitSurvey rq d)
  | Withdraw rq => snd (requestWithdrawal rq d)
  end.

Definition run_requests (rs : list request) (d : db) : db :=
  fold_left (fun acc r => handle r acc) rs d.

(** [transactions.user_id REFERENCES users(id)]. *)
Definition fk_transactions (d : db) : Prop :=
  forall t, In t (transactions d) ->
            existsb (fun u => Nat.eqb (u_id u) (t_user_id t)) (users d) = true.

(** Every stored balance is the completed part of the account's ledger. *)
Definition balances_cached (d : db) : Prop :=
  forall u, In u (users d) ->
            u_balance u = completed_ledger_sum (transactions d) (u_id u).

Definition ledger_consistent (d : db) : Prop :=
  fk_transactions d /\ balances_cached d.

(** The database with the [is_active] flag of every survey replaced. *)
Definition reflag (f : survey -> bool) (s : survey) : survey :=
  mkSurvey (s_id s) (s_survey_key s) (s_reward_amount s) (f s).

Definition with_active (f : survey -> bool) (d : db) : db :=
  set_surveys (map (reflag f) (surveys d)) d.

(** ** Values that fit their columns (src/schema.sql)

    Sufficient conditions for PostgreSQL to store a value as it is bound.
    They are hypotheses of the statements that conclude that a request is
    accepted; no statement of the embedding tests them. *)

(** A text without NUL character. *)
Definition no_nul (s : string) : bool :=
  forallb (fun c => negb (Ascii.eqb c Ascii.zero)) (list_ascii_of_string s).

(** [VARCHAR(n)]: at most [n] characters. *)
Definition fits_varchar (n : nat) (s : string) : bool :=
  (String.length s <=? n)%nat && no_nul s.

(** [INTEGER]. *)
Definition fits_int4 (z : Z) : bool :=
  (-2147483648 <=? z) && (z <=? 2147483647).

(** [DECIMAL(10,2)], in cents: below 100000000.00 in absolute value. *)
Definition fits_decimal_10_2 (c : cents) : bool :=
  Z.abs c <? 10000000000.

Definition is_digit (c : ascii) : bool :=
  (48 <=? nat_of_ascii c)%nat && (nat_of_ascii c <=? 57)%nat.

(** The fields of [s] between its dots. *)
Fixpoint dot_fields (s : string) : list string :=
  match s with
  | EmptyString => [EmptyString]
  | String c r =>
      if Ascii.eqb c "."%char then EmptyString :: dot_fields r
      else match dot_fields r with
           | f :: fs => String c f :: fs
           | [] => [String c EmptyString]
           end
  end.

(** One to three digits, without leading zero, of value at most 255. *)
Definition is_octet (s : string) : bool :=
  forallb is_digit (list_ascii_of_string s)
  && match list_ascii_of_string s with
     | [_] => true
     | [a; _] => negb (Ascii.eqb a "0"%char)
     | [a; b; c] =>
         negb (Ascii.eqb a "0"%char)
         && ((100 * (nat_of_ascii a - 48) + 10 * (nat_of_ascii b - 48)
              + (nat_of_ascii c - 48)) <=? 255)%nat
     | _ => false
     end.

(** [INET]: a dotted quad (other spellings of an address are left out). *)
Definition is_ipv4 (s : string) : bool :=
  match dot_fields s with
  | [a; b; c; e] => is_octet a && is_octet b && is_octet c && is_octet e
  | _ => false
  end.

Definition answer_fits (a : answer) : bool :=
  match a with
  | AText t => no_nul t
  | AOptions l => forallb no_nul l
  | ANull => true
  end.

(** A submission whose values fit the columns and parameters they are bound
    to: [survey_id INTEGER], [ip_address INET], [user_agent TEXT],
    [email VARCHAR(255)], the question keys and the answers. *)
Definition submission_fits (rq : submission) : bool :=
  fits_int4 (sb_survey_id rq)
  && is_ipv4 (sb_user_ip rq)
  && no_nul (sb_user_agent rq)
  && fits_varchar 255 (tempEmail rq)
  && forallb (fun e => no_nul (fst e) && answer_fits (snd e)) (sb_responses rq).

(** A withdrawal request whose values fit: [ip_address INET] and
    [paypal_email VARCHAR(255)]. *)
Definition withdrawal_fits (rq : withdrawal_body) : bool :=
  is_ipv4 (wb_user_ip rq)
  && match wb_paypal_email rq with
     | Some p => fits_varchar 255 p
     | None => true
     end.

(** ** Concrete states used in the examples *)

Module Ex.

Definition main_survey : survey := mkSurvey 1 "main_survey" 500 true.
Definition old_survey : survey := mkSurvey 2 "communication" 100 false.

Definition alice : user :=
  mkUser 7%nat "alice@example.org" 500 "REF123456" "10.0.0.1" "curl" 100 100.

Definition reward_alice : transaction :=
  mkTransaction 7%nat survey_reward 500
    "Recompensa por completar encuesta: main_survey"
    (Some "main_survey") completed None.

Definition empty_db : db :=
  mkDb [] [main_survey; old_survey]
       [mkQuestion 1 1 "q1"; mkQuestion 2 1 "q2"; mkQuestion 11 2 "communication_q1"]
       [] [] [] [] [] []
       [("referral_bonus_threshold", 2); ("referral_bonus_amount", 1000)].

(** Alice has completed the main survey and holds 5.00. *)
Definition alice_db : db :=
  mkDb [alice] [main_survey; old_survey]
       [mkQuestion 1 1 "q1"; mkQuestion 2 1 "q2"; mkQuestion 11 2 "communication_q1"]
       [mkResponse 7%nat 1 1 (Some "Si") None]
       [mkCompletion 7%nat 1 true]
       [reward_alice] [] [] []
       [("referral_bonus_threshold", 2); ("referral_bonus_amount", 1000)].

Definition withdraw_5 : withdrawal_body :=
  mkWithdrawalBody 7%nat 500 (Some "alice@paypal.example") "10.0.0.1".

Definition withdraw_3 : withdrawal_body :=
  mkWithdrawalBody 7%nat 300 (Some "alice@paypal.example") "10.0.0.1".

(** Alice with nothing on her account. *)
Definition broke_db : db :=
  set_transactions [] (set_users [set_balance 0 alice] alice_db).

(** A submission of two answers, one of them for a key that names no
    question. *)
Definition submission_for (surveyId : Z) (email : option string)
           (now : N) (fresh : uuid) : submission :=
  mkSubmission surveyId [("q1", AText "Si"); ("nope", AText "x")]
               email "10.0.0.1" "curl" now now now fresh.

Definition alice_first : submission :=
  submission_for 1 (Some "alice@example.org") 1700000000123 7%nat.

(** Alice again, from another address and with other answers. *)
Definition alice_retry : submission :=
  mkSubmission 1 [("q2", AOptions ["a"; "b"])] (Some "alice@example.org")
               "10.0.0.9" "firefox" 1700000009999 1700000009999 1700000009999 9%nat.

Definition bob_submission : submission :=
  submission_for 1 (Some "bob@example.org") 1700000456789 8%nat.

(** Alice submits to a survey id that is not in [surveys]. *)
Definition ghost_submission : submission :=
  submission_for 99 (Some "alice@example.org") 1700000000123 8%nat.

(** Alice submits to the deactivated survey. *)
Definition inactive_submission : submission :=
  mkSubmission 2 [("communication_q1", AText "Email")]
               (Some "alice@example.org") "10.0.0.1" "curl"
               1700000000123 1700000000123 1700000000123 8%nat.

(** A submission that carries no [userEmail]. *)
Definition anonymous (now : N) (fresh : uuid) : submission :=
  mkSubmission 1 [("q1", AText "Si")] None "10.0.0.1" "curl" now now now fresh.

(** Two anonymous submissions 1000 seconds apart. *)
Definition anon_1 : submission := anonymous 1700000000000 31%nat.
Definition anon_2 : submission := anonymous 1700001000000 32%nat.

(** Alice has referred two users: the configured threshold. *)
Definition referrer_db : db :=
  mkDb [alice;
        mkUser 21%nat "carol@example.org" 0 "REF000021" "10.0.0.21" "curl" 110 110;
        mkUser 22%nat "dave@example.org" 0 "REF000022" "10.0.0.22" "curl" 120 120;
        mkUser 23%nat "erin@example.org" 0 "REF000023" "10.0.0.23" "curl" 130 130]
       (surveys alice_db) (survey_questions alice_db)
       (user_survey_responses alice_db) (user_completed_surveys alice_db)
       (transactions alice_db) [] []
       [mkReferral 7%nat 21%nat; mkReferral 7%nat 22%nat; mkReferral 21%nat 23%nat]
       (system_config alice_db).



(** A day of requests: accepted and rejected submissions and withdrawals. *)
Definition day : list request :=
  [Submit alice_first; Withdraw withdraw_5; Submit bob_submission;
   Submit alice_retry; Withdraw withdraw_3; Submit anon_1; Submit anon_2;
   Withdraw withdraw_5].

(** Alice's account after her request to withdraw the 5.00 has committed. *)
Definition pending_db : db := snd (requestWithdrawal withdraw_5 alice_db).

(** The same ledger once the operator has marked the request failed. *)
Definition failed_ledger : list transaction :=
  [reward_alice;
   mkTransaction 7%nat withdrawal_request 500
     "Solicitud de retiro vía PayPal" None failed (Some "alice@paypal.example")].

End Ex.

(** * Further code of the repository *)

(** ** GET /api/surveys (server.js 130-144)

    [SELECT s.*, (SELECT COUNT( * ) FROM survey_questions WHERE survey_id = s.id)
       AS question_count
     FROM surveys s WHERE is_active = true ORDER BY id]. *)

Record survey_listing := mkSurveyListing {
  sl_survey : survey;
  sl_question_count : nat
}.

Definition question_count (surveyId : Z) (d : db) : nat :=
  List.length (filter (fun q => q_survey_id q =? surveyId) (survey_questions d)).

(** [ORDER BY id], as an insertion sort. *)
Fixpoint insert_by_id (s : survey) (l : list survey) : list survey :=
  match l with
  | [] => [s]
  | x :: r => if s_id s <=? s_id x then s :: l else x :: insert_by_id s r
  end.

Definition order_by_id (l : list survey) : list survey :=
  fold_right insert_by_id [] l.

Definition get_surveys (d : db) : list survey_listing :=
  map (fun s => mkSurveyListing s (question_count (s_id s) d))
      (order_by_id (filter s_is_active (surveys d))).

(** ** The view admin_stats (part_001 370-378), read by GET /api/admin/stats
    (server.js 370-378)

    The two columns that count the rows of the last seven days are left
    out: they read [completed_at], which the model does not keep. *)

Record admin_stats_row := mkAdminStats {
  st_total_users : nat;
  st_total_surveys_completed : nat;
  st_total_rewards_paid : cents;
  st_total_withdrawals : cents;
  st_pending_withdrawals : nat
}.

(** [COALESCE(SUM(amount), 0) FROM transactions
     WHERE transaction_type IN (...) AND status = 'completed']. *)
Definition completed_amounts (kind : tx_type -> bool) (ts : list transaction) : cents :=
  sum (map t_amount
         (filter (fun t => kind (t_type t) && tx_status_eqb (t_status t) completed) ts)).

Definition admin_stats (d : db) : admin_stats_row :=
  mkAdminStats
    (List.length (users d))
    (List.length (user_completed_surveys d))
    (completed_amounts is_credit (transactions d))
    (completed_amounts is_withdrawal (transactions d))
    (List.length (filter (fun w => tx_status_eqb (w_status w) pending)
                         (withdrawal_requests d))).

(** ** The view user_dashboard (schema.sql 161-173)

    [last_login] is left out (no modelled statement reads or writes it). *)

Record dashboard_row := mkDashboard {
  dash_id : uuid;
  dash_email : string;
  dash_referral_code : string;
  dash_current_balance : cents;
  dash_total_referrals : nat;
  dash_completed_surveys_count : nat;
  dash_created_at : N
}.

(** [SELECT COUNT( * ) FROM user_completed_surveys ucs
     JOIN surveys s ON ucs.survey_id = s.id WHERE ucs.user_id = u.id]. *)
Definition completed_surveys_count (userId : uuid) (d : db) : nat :=
  List.length
    (flat_map (fun c => filter (fun s => s_id s =? c_survey_id c) (surveys d))
              (filter (fun c => Nat.eqb (c_user_id c) userId)
                      (user_completed_surveys d))).

Definition dashboard_of (d : db) (u : user) : dashboard_row :=
  mkDashboard (u_id u) (u_email u) (u_referral_code u)
    (Schema.get_user_balance (transactions d) (u_id u))
    (List.length (filter (fun r => Nat.eqb (ref_referrer_id r) (u_id u)) (referrals d)))
    (completed_surveys_count (u_id u) d)
    (u_created_at u).

Definition user_dashboard (d : db) : list dashboard_row :=
  map (dashboard_of d) (users d).

(** ** Constraints and shapes kept by the routes *)

(** [users.id PRIMARY KEY], [users.email UNIQUE], [users.referral_code UNIQUE]. *)
Definition users_unique (d : db) : Prop :=
  NoDup (map u_id (users d))
  /\ NoDup (map u_email (users d))
  /\ NoDup (map u_referral_code (users d)).

(** [UNIQUE(user_id, survey_id)] of [user_completed_surveys]. *)
Definition completions_unique (d : db) : Prop :=
  NoDup (map (fun c => (c_user_id c, c_survey_id c)) (user_completed_surveys d)).

(** [UNIQUE(user_id, survey_id, question_id)] of [user_survey_responses]. *)
Definition responses_unique (d : db) : Prop :=
  NoDup (map (fun r => (r_user_id r, r_survey_id r, r_question_id r))
             (user_survey_responses d)).

(** [l'] is [l] with rows appended. *)
Definition extends {A} (l l' : list A) : Prop := exists rows, l' = l ++ rows.


(** The ledger entries the two routes write: completed survey rewards and
    pending withdrawal requests. *)
Definition route_entry (t : transaction) : Prop :=
  (t_type t = survey_reward /\ t_status t = completed)
  \/ (t_type t = withdrawal_request /\ t_status t = pending).

(** The amounts of the account's [withdrawal_request] entries. *)
Definition requested_total (ts : list transaction) (userId : uuid) : cents :=
  sum (map t_amount
         (filter (fun t => Nat.eqb (t_user_id t) userId
                           && tx_type_eqb (t_type t) withdrawal_request) ts)).

(** What a [withdrawal_request] ledger entry and a [withdrawal_requests] row
    have in common. *)
Definition request_of_entry (t : transaction) : uuid * cents * option string * tx_status :=
  (t_user_id t, t_amount t, t_paypal_email t, t_status t).

Definition request_of_row (w : withdrawal) : uuid * cents * option string * tx_status :=
  (w_user_id w, w_amount w, Some (w_paypal_email w), w_status w).

(** Every [withdrawal_request] entry of the ledger has its row in
    [withdrawal_requests], in the same order, and there are no other rows. *)
Definition requests_paired (d : db) : Prop :=
  map request_of_entry
      (filter (fun t => tx_type_eqb (t_type t) withdrawal_request) (transactions d))
  = map request_of_row (withdrawal_requests d).

(** [d'] keeps every row of the append-only tables of [d], in order, and
    the catalogue, the referrals and the configuration of [d] as they are. *)
Definition grows (d d' : db) : Prop :=
  extends (transactions d) (transactions d')
  /\ extends (user_completed_surveys d) (user_completed_surveys d')
  /\ extends (user_survey_responses d) (user_survey_responses d')
  /\ extends (withdrawal_requests d) (withdrawal_requests d')
  /\ extends (activity_logs d) (activity_logs d')
  /\ surveys d' = surveys d
  /\ survey_questions d' = survey_questions d
  /\ referrals d' = referrals d
  /\ system_config d' = system_config d.



(** ** Stored procedures of src/unnamed/part_001, continued *)






(** [generate_unique_referral_code] (part_001 142-162).  The codes drawn by
    [upper(substr(md5(random()::text), 1, 8))], one per turn of the loop,
    are given as a list; [None] when the list ends before the loop does. *)
Fixpoint generate_unique_referral_code (draws : list string) (d : db)
  : option string :=
  match draws with
  | [] => None
  | new_code :: rest =>
      if existsb (fun u => (u_referral_code u =? new_code)%string) (users d)
      then generate_unique_referral_code rest d
      else Some new_code
  end.

(** The trigger [set_referral_code] (part_001 165-177), [BEFORE INSERT ON
    users]: the value of [NEW.referral_code] after it has run. *)
Definition set_referral_code (new_referral_code : option string)
           (draws : list string) (d : db) : option string :=
  match new_referral_code with
  | None => generate_unique_referral_code draws d
  | Some c => if (c =? "")%string then generate_unique_referral_code draws d
              else Some c
  end.

(** ** POST /api/withdrawals of the second server of src/unnamed/part_000
    (819-906)

    The route validates the body before it opens a transaction, answers the
    two refusals of the database part after an explicit [ROLLBACK], and
    answers success when a statement raises ([catch (dbError)]); the
    transaction is then left open on a connection that is not released, so
    nothing of it is committed. *)






(** * Properties *)

(** ** The withdrawal route *)

Lemma requestWithdrawal_eq (rq : withdrawal_body) (d : db) :
  requestWithdrawal rq d =
  match withdrawal_decision (select_balance (wb_user_id rq) d) rq,
        wb_paypal_email rq with
  | inr _, Some p => (inr tt, withdrawal_writes rq p d)
  | inr _, None => (inl (StorageFailure withdrawal_paypal_not_null), d)
  | inl e, _ => (inl e, d)
  end.
Proof.
  unfold requestWithdrawal, run_tx, withdraw_body, withdrawal_decision, bind, query.
  destruct (select_balance (wb_user_id rq) d) as [b|]; cbn; [|destruct (wb_paypal_email rq); reflexivity].
  destruct (b <? wb_amount rq); cbn; [destruct (wb_paypal_email rq); reflexivity|].
  destruct (wb_amount rq <? minimum_withdrawal); cbn; [destruct (wb_paypal_email rq); reflexivity|].
  unfold insert_withdrawal.
  destruct (wb_paypal_email rq) as [p|]; reflexivity.
Qed.

Lemma requestWithdrawal_result (rq : withdrawal_body) (d : db) :
  fst (requestWithdrawal rq d)
  = withdrawal_decision (select_balance (wb_user_id rq) d) rq.
Proof.
  rewrite requestWithdrawal_eq. unfold withdrawal_decision.
  destruct (select_balance (wb_user_id rq) d) as [b|]; cbn; [|reflexivity].
  destruct (b <? wb_amount rq); cbn; [reflexivity|].
  destruct (wb_amount rq <? minimum_withdrawal); cbn; [reflexivity|].
  destruct (wb_paypal_email rq); reflexivity.
Qed.

Lemma requestWithdrawal_users (rq : withdrawal_body) (d : db) :
  users (snd (requestWithdrawal rq d)) = users d.
Proof.
  rewrite requestWithdrawal_eq.
  destruct (withdrawal_decision _ rq); [reflexivity|].
  destruct (wb_paypal_email rq); reflexivity.
Qed.

Lemma requestWithdrawal_failure_frame (rq : withdrawal_body) (d : db) (e : error) :
  fst (requestWithdrawal rq d) = inl e -> snd (requestWithdrawal rq d) = d.
Proof.
  rewrite requestWithdrawal_eq.
  destruct (withdrawal_decision _ rq); [reflexivity|].
  destruct (wb_paypal_email rq); [discriminate|reflexivity].
Qed.

Lemma run_withdrawals_users (rqs : list withdrawal_body) (d : db) :
  users (snd (run_withdrawals rqs d)) = users d.
Proof.
  revert d. induction rqs as [|rq rest IH]; intros d; cbn; [reflexivity|].
  pose proof (requestWithdrawal_users rq d) as Hu.
  destruct (requestWithdrawal rq d) as [r d1]. cbn in Hu.
  specialize (IH d1).
  destruct (run_withdrawals rest d1) as [rs d2]. cbn in *. congruence.
Qed.

Lemma select_balance_users (userId : uuid) (d d' : db) :
  users d' = users d -> select_balance userId d' = select_balance userId d.
Proof. unfold select_balance, find_user. intros ->. reflexivity. Qed.

Lemma withdrawal_decision_insufficient (B : cents) (rq : withdrawal_body) :
  withdrawal_decision (Some B) rq = inl InsufficientBalance <-> B < wb_amount rq.
Proof.
  unfold withdrawal_decision.
  destruct (Z.ltb_spec B (wb_amount rq)) as [Hlt|Hge].
  - tauto.
  - split; [|lia].
    destruct (wb_amount rq <? minimum_withdrawal); [discriminate|].
    destruct (wb_paypal_email rq); discriminate.
Qed.

Lemma withdrawal_decision_accepts (B : cents) (rq : withdrawal_body) :
  withdrawal_decision (Some B) rq = inr tt
  <-> wb_amount rq <= B /\ minimum_withdrawal <= wb_amount rq
      /\ wb_paypal_email rq <> None.
Proof.
  unfold withdrawal_decision.
  destruct (Z.ltb_spec B (wb_amount rq)) as [Hlt|Hge].
  - split; [discriminate|lia].
  - destruct (Z.ltb_spec (wb_amount rq) minimum_withdrawal) as [Hm|Hm].
    + split; [discriminate|lia].
    + destruct (wb_paypal_email rq).
      * split; [intros _; repeat split; try lia; discriminate|reflexivity].
      * split; [discriminate|]. intros (_ & _ & H). now elim H.
Qed.

(** C9.  A successful withdrawal request writes nothing into [users]: the
    table, and with it the cached [balance] column of every row, is what it
    was before the call.  The request is recorded as one new pending
    [transactions] row, one new [withdrawal_requests] row and one audit row,
    and any later withdrawal request reads the same cached balance and gets
    the answer it would have got before. *)
Theorem withdrawal_leaves_users_untouched
        (rq : withdrawal_body) (d d' : db) :
  requestWithdrawal rq d = (inr tt, d') ->
  users d' = users d
  /\ transactions d' = transactions d ++ [withdrawal_transaction rq]
  /\ t_status (withdrawal_transaction rq) = pending
  /\ (exists p, wb_paypal_email rq = Some p
                /\ withdrawal_requests d'
                   = withdrawal_requests d
                       ++ [mkWithdrawal (wb_user_id rq) (wb_amount rq) p pending])
  /\ activity_logs d' = activity_logs d ++ [withdrawal_activity rq]
  /\ (forall userId, select_balance userId d' = select_balance userId d)
  /\ (forall rq', fst (requestWithdrawal rq' d') = fst (requestWithdrawal rq' d)).
Proof.
  rewrite requestWithdrawal_eq.
  destruct (withdrawal_decision _ rq) as [e|[]]; [discriminate|].
  destruct (wb_paypal_email rq) as [p|]; [|discriminate].
  intros H. injection H as <-.
  repeat split; try reflexivity.
  - exists p. split; reflexivity.
  - intros rq'. rewrite !requestWithdrawal_result. reflexivity.
Qed.

Lemma withdrawal_leaves_users_untouched_witness :
  requestWithdrawal Ex.withdraw_5 Ex.alice_db
  = (inr tt, withdrawal_writes Ex.withdraw_5 "alice@paypal.example" Ex.alice_db)
  /\ users (withdrawal_writes Ex.withdraw_5 "alice@paypal.example" Ex.alice_db)
     = users Ex.alice_db.
Proof.
  split; [reflexivity|].
  exact (proj1 (withdrawal_leaves_users_untouched
                  Ex.withdraw_5 Ex.alice_db _ eq_refl)).
Defined.

(** C6, as stated, fails: a request below the floor against an account that
    holds less than the amount is answered "Saldo insuficiente", the balance
    being compared first. *)
Lemma below_minimum_counterexample :
  wb_amount Ex.withdraw_3 < minimum_withdrawal
  /\ requestWithdrawal Ex.withdraw_3 Ex.broke_db
     = (inl InsufficientBalance, Ex.broke_db)
  /\ fst (requestWithdrawal Ex.withdraw_3 Ex.broke_db) <> inl BelowMinimum.
Proof. split; [reflexivity|split; [reflexivity|discriminate]]. Qed.

(** C6 (amended).  Every withdrawal request whose amount is below the floor
    (5 EUR, written in the route) fails and leaves the database as it was: no
    ledger entry and no withdrawal request is appended.  The account lookup
    and the balance comparison come first, so the error is [BelowMinimum]
    exactly when the account exists and its cached balance covers the amount;
    otherwise it is [AccountNotFound] or [InsufficientBalance]. *)
Theorem below_minimum_always_fails (rq : withdrawal_body) (d : db) :
  wb_amount rq < minimum_withdrawal ->
  exists e : error,
    requestWithdrawal rq d = (inl e, d)
    /\ e = match select_balance (wb_user_id rq) d with
           | None => AccountNotFound
           | Some b => if b <? wb_amount rq then InsufficientBalance
                       else BelowMinimum
           end
    /\ (e = BelowMinimum
        <-> exists b, select_balance (wb_user_id rq) d = Some b
                      /\ wb_amount rq <= b).
Proof.
  intros Hmin. rewrite requestWithdrawal_eq. unfold withdrawal_decision.
  destruct (select_balance (wb_user_id rq) d) as [b|].
  - destruct (Z.ltb_spec b (wb_amount rq)) as [Hlt|Hge].
    + exists InsufficientBalance. repeat split; try discriminate.
      intros (b' & Hb & Hle). injection Hb as <-. lia.
    + destruct (Z.ltb_spec (wb_amount rq) minimum_withdrawal); [|lia].
      exists BelowMinimum. repeat split. intros _. now exists b.
  - exists AccountNotFound. repeat split; try discriminate.
    intros (b' & Hb & _). discriminate.
Qed.

Lemma below_minimum_always_fails_witness :
  wb_amount Ex.withdraw_3 < minimum_withdrawal
  /\ exists e : error,
       requestWithdrawal Ex.withdraw_3 Ex.alice_db = (inl e, Ex.alice_db)
       /\ e = BelowMinimum.
Proof.
  split; [reflexivity|].
  destruct (below_minimum_always_fails Ex.withdraw_3 Ex.alice_db eq_refl)
    as (e & Hrun & He & _).
  exists e. split; [exact Hrun|exact He].
Defined.

(** C3, as stated, fails: with a pending debit of 5.00 in the ledger the
    balance of section 4.2 is 0.00, yet a further request of 5.00 is accepted,
    because the comparison is made with the cached column, still 5.00. *)
Lemma balance_check_counterexample :
  spec_balance (transactions Ex.pending_db) (wb_user_id Ex.withdraw_5) = 0
  /\ select_balance (wb_user_id Ex.withdraw_5) Ex.pending_db = Some 500
  /\ wb_amount Ex.withdraw_5 = 500
  /\ fst (requestWithdrawal Ex.withdraw_5 Ex.pending_db) = inr tt.
Proof. repeat split. Qed.

(** C3 (amended).  In every withdrawal request the balance compared with the
    requested amount is the cached column [users.balance], read inside the
    transaction: the request fails with [InsufficientBalance] exactly when
    the account's row exists and its [balance] is below the amount, and the
    answer does not depend on the contents of the ledger. *)
Theorem withdrawal_checks_cached_balance (rq : withdrawal_body) (d : db) :
  (fst (requestWithdrawal rq d) = inl InsufficientBalance
   <-> exists u, find_user (wb_user_id rq) d = Some u
                 /\ u_balance u < wb_amount rq)
  /\ (forall ts : list transaction,
         fst (requestWithdrawal rq (set_transactions ts d))
         = fst (requestWithdrawal rq d)).
Proof.
  split.
  - rewrite requestWithdrawal_result. unfold select_balance.
    destruct (find_user (wb_user_id rq) d) as [u|]; cbn [option_map].
    + rewrite withdrawal_decision_insufficient. split.
      * intros H. now exists u.
      * intros (u' & Hu & Hlt). now injection Hu as <-.
    + cbn. split; [discriminate|]. intros (u' & Hu & _). discriminate.
  - intros ts. rewrite !requestWithdrawal_result. reflexivity.
Qed.

(** C2, as stated, fails: with 5.00 on the account two requests of 5.00 each,
    handled one after the other, are both accepted. *)
Lemma overdraw_counterexample :
  select_balance 7%nat Ex.alice_db = Some 500
  /\ fst (run_withdrawals [Ex.withdraw_5; Ex.withdraw_5] Ex.alice_db)
     = [inr tt; inr tt]
  /\ 500 < accepted_total [Ex.withdraw_5; Ex.withdraw_5]
                          (fst (run_withdrawals [Ex.withdraw_5; Ex.withdraw_5]
                                                Ex.alice_db)).
Proof. repeat split. Qed.

Lemma run_withdrawals_results (d : db) (userId : uuid) (B : cents)
      (rqs : list withdrawal_body) :
  select_balance userId d = Some B ->
  Forall (fun rq => wb_user_id rq = userId) rqs ->
  fst (run_withdrawals rqs d) = map (withdrawal_decision (Some B)) rqs.
Proof.
  revert d. induction rqs as [|rq rest IH]; intros d HB Hall; cbn; [reflexivity|].
  pose proof (Forall_inv Hall) as Hrq. cbn in Hrq.
  pose proof (Forall_inv_tail Hall) as Hrest.
  pose proof (requestWithdrawal_result rq d) as Hr.
  pose proof (requestWithdrawal_users rq d) as Hu.
  destruct (requestWithdrawal rq d) as [r d1]. cbn in Hr, Hu.
  specialize (IH d1).
  rewrite (select_balance_users userId _ _ Hu) in IH. specialize (IH HB Hrest).
  destruct (run_withdrawals rest d1) as [rs d2]. cbn in *.
  rewrite Hr, Hrq, HB, IH. reflexivity.
Qed.

(** C2 (amended).  For an account whose cached balance is [B], every
    withdrawal request is judged on its own against [B], which no withdrawal
    changes: whatever requests were committed before it, a request that fits
    the columns (an origin that is an IPv4 address, a payout address of at
    most 255 characters) is accepted exactly when its own amount is at most
    [B] (and at least the floor, with a payout address), and fails with
    [InsufficientBalance] exactly when its own amount exceeds [B].  The
    accepted amounts are not bounded jointly. *)
Theorem withdrawals_judged_one_by_one
        (d : db) (userId : uuid) (B : cents) :
  select_balance userId d = Some B ->
  fits_decimal_10_2 B = true ->
  (forall rqs : list withdrawal_body,
      Forall (fun rq => wb_user_id rq = userId /\ withdrawal_fits rq = true) rqs ->
      fst (run_withdrawals rqs d) = map (withdrawal_decision (Some B)) rqs)
  /\ (forall (others : list withdrawal_body) (rq : withdrawal_body),
         Forall (fun o => withdrawal_fits o = true) others ->
         wb_user_id rq = userId ->
         withdrawal_fits rq = true ->
         let r := fst (requestWithdrawal rq (snd (run_withdrawals others d))) in
         r = withdrawal_decision (Some B) rq
         /\ (r = inl InsufficientBalance <-> B < wb_amount rq)
         /\ (r = inr tt <-> wb_amount rq <= B
                            /\ minimum_withdrawal <= wb_amount rq
                            /\ wb_paypal_email rq <> None))
  /\ (forall others : list withdrawal_body,
         select_balance userId (snd (run_withdrawals others d)) = Some B).
Proof.
  intros HB _.
  assert (Hafter : forall others,
             select_balance userId (snd (run_withdrawals others d)) = Some B).
  { intros others.
    rewrite (select_balance_users userId _ _ (run_withdrawals_users others d)).
    exact HB. }
  split; [|split].
  - intros rqs Hall. apply (run_withdrawals_results d userId B rqs HB).
    eapply Forall_impl; [|exact Hall]. now intros rq [Hu _].
  - intros others rq _ Hrq _ r. subst r.
    rewrite requestWithdrawal_result, Hrq, Hafter.
    split; [reflexivity|split].
    + apply withdrawal_decision_insufficient.
    + apply withdrawal_decision_accepts.
  - exact Hafter.
Qed.

Lemma withdrawals_judged_one_by_one_witness :
  select_balance 7%nat Ex.alice_db = Some 500
  /\ fits_decimal_10_2 500 = true
  /\ Forall (fun rq => wb_user_id rq = 7%nat /\ withdrawal_fits rq = true)
            [Ex.withdraw_5; Ex.withdraw_3; Ex.withdraw_5]
  /\ fst (run_withdrawals [Ex.withdraw_5; Ex.withdraw_3; Ex.withdraw_5] Ex.alice_db)
     = map (withdrawal_decision (Some 500))
           [Ex.withdraw_5; Ex.withdraw_3; Ex.withdraw_5].
Proof.
  assert (Hall : Forall (fun rq => wb_user_id rq = 7%nat /\ withdrawal_fits rq = true)
                        [Ex.withdraw_5; Ex.withdraw_3; Ex.withdraw_5])
    by (repeat constructor).
  split; [reflexivity|]. split; [reflexivity|]. split; [exact Hall|].
  exact (proj1 (withdrawals_judged_one_by_one Ex.alice_db 7%nat 500 eq_refl eq_refl)
               _ Hall).
Defined.

(** ** Ledger sums *)

Lemma sum_app (l1 l2 : list Z) : sum (l1 ++ l2) = sum l1 + sum l2.
Proof. unfold sum. induction l1 as [|x l IH]; cbn; [reflexivity|rewrite IH; lia]. Qed.

Lemma ledger_sum_where_cons (p : tx_status -> bool) (t : transaction)
      (ts : list transaction) (account : uuid) :
  ledger_sum_where p (t :: ts) account
  = (if Nat.eqb (t_user_id t) account && p (t_status t) then case_amount t else 0)
    + ledger_sum_where p ts account.
Proof.
  unfold ledger_sum_where. cbn.
  destruct (Nat.eqb (t_user_id t) account && p (t_status t)); reflexivity.
Qed.

(** Splitting a ledger sum along two disjoint sets of statuses. *)
Lemma ledger_sum_where_split (p q r : tx_status -> bool)
      (ts : list transaction) (account : uuid) :
  (forall st, p st = q st || r st) ->
  (forall st, q st && r st = false) ->
  ledger_sum_where p ts account
  = ledger_sum_where q ts account + ledger_sum_where r ts account.
Proof.
  intros Hor Hdisj. induction ts as [|t ts IH]; [reflexivity|].
  rewrite !ledger_sum_where_cons, IH, Hor.
  specialize (Hdisj (t_status t)).
  destruct (Nat.eqb (t_user_id t) account), (q (t_status t)), (r (t_status t));
    cbn in *; try discriminate; lia.
Qed.

Lemma completed_ledger_sum_where (ts : list transaction) (account : uuid) :
  completed_ledger_sum ts account
  = ledger_sum_where (fun st => tx_status_eqb st completed) ts account.
Proof. reflexivity. Qed.

Lemma spec_balance_where (ts : list transaction) (account : uuid) :
  spec_balance ts account = ledger_sum_where spec_counted ts account.
Proof. reflexivity. Qed.

Lemma get_user_balance_where (ts : list transaction) (account : uuid) :
  Schema.get_user_balance ts account = ledger_sum_where (fun _ => true) ts account.
Proof.
  unfold Schema.get_user_balance, ledger_sum_where.
  do 2 f_equal. apply filter_ext. intros t. now rewrite andb_true_r.
Qed.

(** What the balance cached by the submit route leaves out of the balance of
    the specification: the pending entries. *)
Lemma completed_ledger_sum_spec (ts : list transaction) (account : uuid) :
  completed_ledger_sum ts account
  = spec_balance ts account - ledger_sum_where is_pending ts account.
Proof.
  rewrite completed_ledger_sum_where, spec_balance_where.
  rewrite (ledger_sum_where_split spec_counted
             (fun st => tx_status_eqb st completed) is_pending).
  - lia.
  - now intros [].
  - now intros [].
Qed.

(** What [get_user_balance] of schema.sql adds to the balance of the
    specification: the failed and cancelled entries. *)
Lemma get_user_balance_spec (ts : list transaction) (account : uuid) :
  Schema.get_user_balance ts account
  = spec_balance ts account + ledger_sum_where is_failed_or_cancelled ts account.
Proof.
  rewrite get_user_balance_where, spec_balance_where.
  apply ledger_sum_where_split; now intros [].
Qed.

(** ** Generic facts on tables *)

Lemma find_map_preserved {A} (p : A -> bool) (f : A -> A) (l : list A) :
  (forall x, p (f x) = p x) ->
  find p (map f l) = option_map f (find p l).
Proof.
  intros Hp. induction l as [|x l IH]; cbn; [reflexivity|].
  rewrite Hp. destruct (p x); [reflexivity|exact IH].
Qed.

Lemma existsb_map_preserved {A} (p : A -> bool) (f : A -> A) (l : list A) :
  (forall x, p (f x) = p x) ->
  existsb p (map f l) = existsb p l.
Proof.
  intros Hp. induction l as [|x l IH]; cbn; [reflexivity|].
  now rewrite Hp, IH.
Qed.

Lemma find_app_none {A} (p : A -> bool) (l1 l2 : list A) :
  find p l1 = None -> find p (l1 ++ l2) = find p l2.
Proof.
  induction l1 as [|x l IH]; cbn; [reflexivity|].
  destruct (p x); [discriminate|exact IH].
Qed.

Lemma find_app_some {A} (p : A -> bool) (l1 l2 : list A) (x : A) :
  find p l1 = Some x -> find p (l1 ++ l2) = Some x.
Proof.
  induction l1 as [|y l IH]; cbn; [discriminate|].
  destruct (p y); [trivial|exact IH].
Qed.

Lemma find_none_existsb {A} (p : A -> bool) (l : list A) :
  find p l = None <-> existsb p l = false.
Proof.
  induction l as [|x l IH]; cbn; [tauto|].
  destruct (p x); cbn; [split; discriminate|exact IH].
Qed.

Lemma existsb_false_filter {A} (p : A -> bool) (l : list A) :
  existsb p l = false -> filter p l = [].
Proof.
  induction l as [|x l IH]; cbn; [reflexivity|].
  destruct (p x); cbn; [discriminate|exact IH].
Qed.

(** ** The account upsert *)

Lemma refresh_id ip ua now u : u_id (refresh ip ua now u) = u_id u.
Proof. reflexivity. Qed.

Lemma upsert_user_frame email ip ua code fresh now d userId dU :
  upsert_user email ip ua code fresh now d = inr (userId, dU) ->
  dU = set_users (users dU) d.
Proof.
  unfold upsert_user.
  destruct (find_user_by_email email d).
  - intros H. injection H as _ <-. reflexivity.
  - destruct (existsb _ (users d)); [discriminate|].
    destruct (existsb _ (users d)); [discriminate|].
    intros H. injection H as _ <-. reflexivity.
Qed.

(** After the upsert the contact key resolves to the returned id, and a row
    with that id exists. *)
Lemma upsert_user_resolves email ip ua code fresh now d userId dU :
  upsert_user email ip ua code fresh now d = inr (userId, dU) ->
  (exists u, find_user_by_email email dU = Some u /\ u_id u = userId)
  /\ find_user userId dU <> None.
Proof.
  unfold upsert_user, find_user_by_email, find_user.
  destruct (find _ (users d)) as [u|] eqn:Hfind.
  - intros H. injection H as <- <-. cbn [users set_users].
    destruct (find_some _ _ Hfind) as [Hin Hemail].
    split.
    + exists (refresh ip ua now u). split; [|reflexivity].
      rewrite find_map_preserved.
      * rewrite Hfind. cbn. now rewrite Hemail.
      * intros x. now destruct (u_email x =? email)%string eqn:E.
    + rewrite find_none_existsb, existsb_map_preserved.
      * intros Hex.
        assert (existsb (fun v => Nat.eqb (u_id v) (u_id u)) (users d) = true) as Ht.
        { apply existsb_exists. exists u. split; [exact Hin|apply Nat.eqb_refl]. }
        congruence.
      * intros x. now destruct (u_email x =? email)%string.
  - destruct (existsb _ (users d)); [discriminate|].
    destruct (existsb _ (users d)); [discriminate|].
    intros H. injection H as <- <-. cbn [users set_users].
    split.
    + eexists. split.
      * rewrite (find_app_none _ _ _ Hfind). cbn. rewrite String.eqb_refl. reflexivity.
      * reflexivity.
    + rewrite find_none_existsb, existsb_app. cbn.
      rewrite Nat.eqb_refl. now rewrite orb_true_r.
Qed.

(** ** The answers loop *)

Lemma save_responses_frame userId surveyId entries d saved dS :
  save_responses userId surveyId entries d = inr (saved, dS) ->
  dS = set_user_survey_responses (user_survey_responses dS) d.
Proof.
  revert d saved. induction entries as [|[k a] rest IH]; intros d saved; cbn.
  - unfold ret. intros H. injection H as _ <-. now destruct d.
  - unfold bind, query.
    destruct (select_question surveyId k d) as [q|]; [|apply IH].
    unfold insert_response.
    destruct (has_response _ _ _ d); [discriminate|].
    destruct (save_responses userId surveyId rest _) as [e|[saved' d1]] eqn:Hrest;
      [discriminate|].
    unfold ret. intros H. injection H as _ <-.
    apply IH in Hrest. rewrite Hrest at 1. reflexivity.
Qed.

Lemma submit_body_unfold (rq : submission) (d : db) :
  submit_body rq d =
  match upsert_user (tempEmail rq) (sb_user_ip rq) (sb_user_agent rq)
                    (referralCode rq) (sb_uuid rq) (sb_sql_now rq) d with
  | inl e => inl e
  | inr (userId, dU) =>
      if has_completed userId (sb_survey_id rq) dU then inl AlreadyCompleted
      else
        match save_responses userId (sb_survey_id rq) (sb_responses rq) dU with
        | inl e => inl e
        | inr (saved, dS) =>
            match select_survey (sb_survey_id rq) dS with
            | Some s =>
                if has_completed userId (sb_survey_id rq) dS
                then inl (StorageFailure user_completed_surveys_key)
                else inr (mkSubmitOk userId (List.length saved),
                          reward_writes rq userId s saved dS)
            | None => inr (mkSubmitOk userId (List.length saved), dS)
            end
        end
  end.
Proof.
  unfold submit_body, bind, query.
  destruct (upsert_user _ _ _ _ _ _ d) as [e|[userId dU]]; [reflexivity|].
  destruct (has_completed userId (sb_survey_id rq) dU); [reflexivity|].
  destruct (save_responses _ _ _ dU) as [e|[saved dS]]; [reflexivity|].
  destruct (select_survey (sb_survey_id rq) dS) as [s|]; [|reflexivity].
  unfold insert_completed. cbn [c_user_id c_survey_id].
  destruct (has_completed userId (sb_survey_id rq) dS); reflexivity.
Qed.

(** ** The submit route *)

Lemma upsert_user_tables email ip ua code fresh now d userId dU :
  upsert_user email ip ua code fresh now d = inr (userId, dU) ->
  surveys dU = surveys d
  /\ survey_questions dU = survey_questions d
  /\ user_survey_responses dU = user_survey_responses d
  /\ user_completed_surveys dU = user_completed_surveys d
  /\ transactions dU = transactions d.
Proof.
  intros H. apply upsert_user_frame in H. rewrite H. now repeat split.
Qed.

Lemma save_responses_tables userId surveyId entries d saved dS :
  save_responses userId surveyId entries d = inr (saved, dS) ->
  users dS = users d
  /\ surveys dS = surveys d
  /\ survey_questions dS = survey_questions d
  /\ user_completed_surveys dS = user_completed_surveys d
  /\ transactions dS = transactions d.
Proof.
  intros H. apply save_responses_frame in H. rewrite H. now repeat split.
Qed.

Lemma select_balance_reward_writes rq userId s saved d :
  find_user userId d <> None ->
  select_balance userId (reward_writes rq userId s saved d)
  = Some (completed_ledger_sum
            (transactions (reward_writes rq userId s saved d)) userId).
Proof.
  intros Hex. unfold select_balance, find_user, reward_writes. cbn [users transactions].
  rewrite find_map_preserved.
  - unfold find_user in Hex.
    destruct (find _ (users d)) as [u|] eqn:Hf; [|congruence].
    apply find_some in Hf as [_ Hid]. cbn. now rewrite Hid.
  - intros x. now destruct (Nat.eqb (u_id x) userId) eqn:E.
Qed.

(** A rewarded submission leaves in [users.balance] the completed part of
    the account's ledger, whatever the column held before. *)
Lemma submit_caches_completed_sum
        (rq : submission) (d d' : db) (r : submit_ok) :
  submitSurvey rq d = (inr r, d') ->
  select_survey (sb_survey_id rq) d <> None ->
  select_balance (ok_user_id r) d'
  = Some (ledger_sum_where (fun st => tx_status_eqb st completed)
                           (transactions d') (ok_user_id r))
  /\ ledger_sum_where (fun st => tx_status_eqb st completed)
                      (transactions d') (ok_user_id r)
     = spec_balance (transactions d') (ok_user_id r)
       - ledger_sum_where is_pending (transactions d') (ok_user_id r).
Proof.
  intros Hrun Hsurvey. split; [|apply completed_ledger_sum_spec].
  unfold submitSurvey, run_tx in Hrun. rewrite submit_body_unfold in Hrun.
  destruct (upsert_user _ _ _ _ _ _ d) as [e|[userId dU]] eqn:Hup; [discriminate|].
  destruct (has_completed userId (sb_survey_id rq) dU); [discriminate|].
  destruct (save_responses _ _ _ dU) as [e|[saved dS]] eqn:Hsave; [discriminate|].
  destruct (upsert_user_tables _ _ _ _ _ _ _ _ _ Hup) as (HsU & _).
  destruct (save_responses_tables _ _ _ _ _ _ Hsave) as (HuS & HsS & _).
  assert (select_survey (sb_survey_id rq) dS = select_survey (sb_survey_id rq) d) as Hsel.
  { unfold select_survey. now rewrite HsS, HsU. }
  rewrite Hsel in Hrun.
  destruct (select_survey (sb_survey_id rq) d) as [s|]; [|congruence].
  destruct (has_completed userId (sb_survey_id rq) dS); [discriminate|].
  injection Hrun as <- <-. cbn [ok_user_id].
  rewrite <- completed_ledger_sum_where.
  apply select_balance_reward_writes.
  unfold find_user. rewrite HuS.
  apply (upsert_user_resolves _ _ _ _ _ _ _ _ _ Hup).
Qed.


Lemma has_completed_true userId surveyId d :
  has_completed userId surveyId d = true ->
  exists c, In c (user_completed_surveys d) /\ c_survey_id c = surveyId
            /\ c_user_id c = userId.
Proof.
  unfold has_completed. intros H. apply existsb_exists in H as (c & Hin & Hc).
  apply andb_prop in Hc as [Hu Hs].
  exists c. repeat split; [exact Hin|lia|now apply Nat.eqb_eq].
Qed.

Lemma select_question_some surveyId k d q :
  select_question surveyId k d = Some q ->
  In q (survey_questions d) /\ q_survey_id q = surveyId /\ q_question_key q = k.
Proof.
  unfold select_question. intros H. apply find_some in H as [Hin Hq].
  apply andb_prop in Hq as [Hs Hk].
  repeat split; [exact Hin|lia|now apply String.eqb_eq].
Qed.

Lemma save_responses_no_question userId surveyId entries d :
  (forall k, select_question surveyId k d = None) ->
  save_responses userId surveyId entries d = inr ([], d).
Proof.
  intros Hnone. induction entries as [|[k a] rest IH]; cbn; [reflexivity|].
  unfold bind, query. now rewrite Hnone.
Qed.

Lemma upsert_user_with_active f email ip ua code fresh now d :
  upsert_user email ip ua code fresh now (with_active f d)
  = match upsert_user email ip ua code fresh now d with
    | inl e => inl e
    | inr (userId, dU) => inr (userId, with_active f dU)
    end.
Proof.
  unfold upsert_user, find_user_by_email. cbn [users with_active set_surveys].
  destruct (find _ (users d)); [reflexivity|].
  destruct (existsb _ (users d)); [reflexivity|].
  destruct (existsb _ (users d)); reflexivity.
Qed.

Lemma save_responses_cons userId surveyId k a rest d :
  save_responses userId surveyId ((k, a) :: rest) d
  = match select_question surveyId k d with
    | Some q =>
        if has_response userId surveyId (q_id q) d
        then inl (StorageFailure user_survey_responses_key)
        else
          match save_responses userId surveyId rest
                  (set_user_survey_responses
                     (user_survey_responses d ++ [response_row userId surveyId q a]) d)
          with
          | inl e => inl e
          | inr (saved, dS) => inr ((k, a) :: saved, dS)
          end
    | None => save_responses userId surveyId rest d
    end.
Proof.
  cbn [save_responses]. unfold bind, query, insert_response.
  destruct (select_question surveyId k d) as [q|]; [|reflexivity].
  cbn [response_row r_user_id r_survey_id r_question_id].
  destruct (has_response userId surveyId (q_id q) d); [reflexivity|].
  destruct (save_responses userId surveyId rest _) as [e|[saved dS]]; reflexivity.
Qed.

Lemma save_responses_with_active f userId surveyId entries d :
  save_responses userId surveyId entries (with_active f d)
  = match save_responses userId surveyId entries d with
    | inl e => inl e
    | inr (saved, dS) => inr (saved, with_active f dS)
    end.
Proof.
  revert d. induction entries as [|[k a] rest IH]; intros d; [reflexivity|].
  rewrite !save_responses_cons.
  change (select_question surveyId k (with_active f d))
    with (select_question surveyId k d).
  destruct (select_question surveyId k d) as [q|]; [|apply IH].
  change (has_response userId surveyId (q_id q) (with_active f d))
    with (has_response userId surveyId (q_id q) d).
  destruct (has_response userId surveyId (q_id q) d); [reflexivity|].
  change (set_user_survey_responses
            (user_survey_responses (with_active f d)
               ++ [response_row userId surveyId q a]) (with_active f d))
    with (with_active f
            (set_user_survey_responses
               (user_survey_responses d ++ [response_row userId surveyId q a]) d)).
  rewrite IH.
  destruct (save_responses userId surveyId rest _) as [e|[saved dS]]; reflexivity.
Qed.

Lemma select_survey_with_active f surveyId d :
  select_survey surveyId (with_active f d)
  = option_map (reflag f) (select_survey surveyId d).
Proof.
  unfold select_survey. cbn [surveys with_active set_surveys].
  now apply find_map_preserved.
Qed.

(** The submit route never reads [is_active]: whatever the flags are, the
    answer is the same and the same rows are written. *)
Lemma submit_ignores_is_active (f : survey -> bool) (rq : submission) (d : db) :
  submitSurvey rq (with_active f d)
  = (fst (submitSurvey rq d), with_active f (snd (submitSurvey rq d))).
Proof.
  unfold submitSurvey, run_tx. rewrite !submit_body_unfold.
  rewrite upsert_user_with_active.
  destruct (upsert_user _ _ _ _ _ _ d) as [e|[userId dU]]; [reflexivity|].
  change (has_completed userId (sb_survey_id rq) (with_active f dU))
    with (has_completed userId (sb_survey_id rq) dU).
  destruct (has_completed userId (sb_survey_id rq) dU); [reflexivity|].
  rewrite save_responses_with_active.
  destruct (save_responses _ _ _ dU) as [e|[saved dS]]; [reflexivity|].
  rewrite select_survey_with_active.
  destruct (select_survey (sb_survey_id rq) dS) as [s|]; [|reflexivity].
  cbn [option_map].
  change (has_completed userId (sb_survey_id rq) (with_active f dS))
    with (has_completed userId (sb_survey_id rq) dS).
  destruct (has_completed userId (sb_survey_id rq) dS); reflexivity.
Qed.

(** C5, as stated, fails: a submission for a survey id that is not in
    [surveys] is committed and answered with [success: true]. *)
Lemma missing_survey_counterexample :
  select_survey (sb_survey_id Ex.ghost_submission) Ex.alice_db = None
  /\ fst (submitSurvey Ex.ghost_submission Ex.alice_db)
     = inr (mkSubmitOk 7%nat 0).
Proof. split; reflexivity. Qed.

(** The route never reads [is_active]: a submission for a deactivated
    survey is accepted and rewarded like any other. *)
Lemma inactive_survey_is_rewarded :
  option_map s_is_active (select_survey (sb_survey_id Ex.inactive_submission) Ex.alice_db)
  = Some false
  /\ fst (submitSurvey Ex.inactive_submission Ex.alice_db) = inr (mkSubmitOk 7%nat 1)
  /\ select_balance 7%nat (snd (submitSurvey Ex.inactive_submission Ex.alice_db))
     = Some 600.
Proof. repeat split. Qed.

(** C5 (amended).  A submission for a survey that does not exist is not
    rejected: when its values fit the columns (the survey id an INTEGER, the
    origin an IPv4 address, the contact key of at most 255 characters, no
    NUL character in its texts), the route skips the reward block, commits
    and reports success with no answer saved.  Nothing but the account
    upsert is written (no completion record, no ledger entry, no audit row),
    and the only failure possible is a storage error of that upsert. *)
Theorem missing_survey_reported_as_success (rq : submission) (d : db) :
  submission_fits rq = true ->
  select_survey (sb_survey_id rq) d = None ->
  fk_survey_questions d ->
  fk_completed_surveys d ->
  submitSurvey rq d
  = match upsert_user (tempEmail rq) (sb_user_ip rq) (sb_user_agent rq)
                      (referralCode rq) (sb_uuid rq) (sb_sql_now rq) d with
    | inl e => (inl e, d)
    | inr (userId, dU) => (inr (mkSubmitOk userId 0), dU)
    end
  /\ (forall r d', submitSurvey rq d = (inr r, d') ->
                   ok_responses_count r = 0%nat /\ d' = set_users (users d') d)
  /\ (forall e, fst (submitSurvey rq d) = inl e -> exists c, e = StorageFailure c).
Proof.
  intros _ Hnone Hfkq Hfkc.
  assert (Heq : submitSurvey rq d
                = match upsert_user (tempEmail rq) (sb_user_ip rq) (sb_user_agent rq)
                                    (referralCode rq) (sb_uuid rq) (sb_sql_now rq) d with
                  | inl e => (inl e, d)
                  | inr (userId, dU) => (inr (mkSubmitOk userId 0), dU)
                  end).
  { unfold submitSurvey, run_tx. rewrite submit_body_unfold.
    destruct (upsert_user _ _ _ _ _ _ d) as [e|[userId dU]] eqn:Hup; [reflexivity|].
    destruct (upsert_user_tables _ _ _ _ _ _ _ _ _ Hup) as (Hs & Hq & _ & Hc & _).
    destruct (has_completed userId (sb_survey_id rq) dU) eqn:Hdone.
    { apply has_completed_true in Hdone as (c & Hin & Hsid & _).
      rewrite Hc in Hin. apply Hfkc in Hin. congruence. }
    rewrite save_responses_no_question.
    - unfold select_survey in *. rewrite Hs, Hnone. reflexivity.
    - intros k. destruct (select_question (sb_survey_id rq) k dU) as [q|] eqn:Hsel;
        [|reflexivity].
      apply select_question_some in Hsel as (Hin & Hsid & _).
      rewrite Hq in Hin. apply Hfkq in Hin. congruence. }
  split; [exact Heq|]. rewrite Heq.
  destruct (upsert_user _ _ _ _ _ _ d) as [e|[userId dU]] eqn:Hup.
  - split; [discriminate|].
    intros e' He'. cbn in He'. injection He' as <-.
    unfold upsert_user in Hup.
    destruct (find_user_by_email _ d); [discriminate|].
    destruct (existsb _ (users d)); [injection Hup as <-; eauto|].
    destruct (existsb _ (users d)); [injection Hup as <-; eauto|discriminate].
  - split; [|discriminate].
    intros r d' H. injection H as <- <-.
    split; [reflexivity|]. now apply upsert_user_frame in Hup.
Qed.

Lemma missing_survey_reported_as_success_witness :
  submission_fits Ex.ghost_submission = true
  /\ select_survey (sb_survey_id Ex.ghost_submission) Ex.alice_db = None
  /\ fst (submitSurvey Ex.ghost_submission Ex.alice_db) = inr (mkSubmitOk 7%nat 0).
Proof.
  split; [reflexivity|]. split; [reflexivity|].
  assert (fk_survey_questions Ex.alice_db) as Hq.
  { intros q Hin. cbn in Hin.
    destruct Hin as [<-|[<-|[<-|[]]]]; discriminate. }
  assert (fk_completed_surveys Ex.alice_db) as Hc.
  { intros c Hin. cbn in Hin. destruct Hin as [<-|[]]. discriminate. }
  rewrite (proj1 (missing_survey_reported_as_success
                    Ex.ghost_submission Ex.alice_db eq_refl eq_refl Hq Hc)).
  reflexivity.
Defined.

Lemma q_id_injective (qs : list question) (q q' : question) :
  NoDup (map q_id qs) -> In q qs -> In q' qs -> q_id q = q_id q' -> q = q'.
Proof.
  induction qs as [|x qs IH]; cbn; [tauto|].
  intros Hnd Hq Hq' Hid. inversion Hnd as [|? ? Hnotin Hnd']; subst.
  destruct Hq as [<-|Hq], Hq' as [<-|Hq']; auto.
  - elim Hnotin. rewrite Hid. now apply in_map.
  - elim Hnotin. rewrite <- Hid. now apply in_map.
Qed.

Lemma matched_entries_ext surveyId entries d d' :
  survey_questions d' = survey_questions d ->
  matched_entries surveyId entries d' = matched_entries surveyId entries d.
Proof.
  intros Hq. induction entries as [|[k a] rest IH]; cbn; [reflexivity|].
  unfold select_question. rewrite Hq, IH. reflexivity.
Qed.

(** The answers loop goes through when the keys of the submission are
    pairwise distinct (they are the keys of one object), question ids are
    unique and no answer of the pair is stored yet. *)
Lemma save_responses_ok userId surveyId entries d :
  NoDup (map fst entries) ->
  NoDup (map q_id (survey_questions d)) ->
  (forall k a q, In (k, a) entries ->
                 select_question surveyId k d = Some q ->
                 has_response userId surveyId (q_id q) d = false) ->
  save_responses userId surveyId entries d
  = inr (map fst (matched_entries surveyId entries d),
         set_user_survey_responses
           (user_survey_responses d
              ++ map (matched_row userId surveyId)
                     (matched_entries surveyId entries d)) d).
Proof.
  revert d. induction entries as [|[k a] rest IH]; intros d Hkeys Hids Hfree.
  - cbn. unfold ret. rewrite app_nil_r. now destruct d.
  - cbn [save_responses matched_entries]. unfold bind at 1. unfold query at 1.
    cbn in Hkeys. inversion Hkeys as [|? ? Hk Hkeys']; subst.
    destruct (select_question surveyId k d) as [q|] eqn:Hsel.
    + unfold bind at 1. unfold insert_response at 1.
      cbn [response_row r_user_id r_survey_id r_question_id].
      rewrite (Hfree k a q (or_introl eq_refl) Hsel).
      set (row := response_row userId surveyId q a).
      set (d1 := set_user_survey_responses (user_survey_responses d ++ [row]) d).
      unfold bind at 1.
      rewrite (IH d1 Hkeys' Hids).
      * unfold ret. rewrite (matched_entries_ext surveyId rest d1 d eq_refl).
        cbn [map fst snd]. unfold d1, set_user_survey_responses.
        cbn [users surveys survey_questions user_survey_responses
             user_completed_surveys transactions withdrawal_requests
             activity_logs referrals system_config].
        rewrite <- app_assoc. reflexivity.
      * intros k' a' q' Hin Hsel'.
        assert (select_question surveyId k' d = Some q') as Hsel0 by exact Hsel'.
        unfold has_response, d1. cbn [user_survey_responses set_user_survey_responses].
        rewrite existsb_app. cbn [existsb].
        pose proof (Hfree k' a' q' (or_intror Hin) Hsel0) as Hold.
        unfold has_response in Hold. rewrite Hold. cbn [orb].
        unfold row. cbn [response_row r_user_id r_survey_id r_question_id].
        destruct (Z.eqb_spec (q_id q) (q_id q')) as [Heq|Hne];
          [|now rewrite andb_false_r].
        apply select_question_some in Hsel as (Hq & _ & Hkq).
        apply select_question_some in Hsel0 as (Hq' & _ & Hkq').
        pose proof (q_id_injective _ q q' Hids Hq Hq' Heq) as ->.
        elim Hk. rewrite <- Hkq, Hkq'.
        change k' with (fst (k', a')). now apply in_map.
    + apply IH; [exact Hkeys'|exact Hids|].
      intros k' a' q' Hin Hs. exact (Hfree k' a' q' (or_intror Hin) Hs).
Qed.

Lemma has_responses_for_false userId surveyId d questionId :
  has_responses_for userId surveyId d = false ->
  has_response userId surveyId questionId d = false.
Proof.
  unfold has_responses_for, has_response.
  induction (user_survey_responses d) as [|r rs IH]; cbn; [reflexivity|].
  intros H. apply orb_false_elim in H as [Hr Hrs].
  rewrite Hr, (IH Hrs). reflexivity.
Qed.

Lemma has_completed_ext userId surveyId d d' :
  user_completed_surveys d' = user_completed_surveys d ->
  has_completed userId surveyId d' = has_completed userId surveyId d.
Proof. unfold has_completed. now intros ->. Qed.

Lemma select_survey_ext surveyId d d' :
  surveys d' = surveys d -> select_survey surveyId d' = select_survey surveyId d.
Proof. unfold select_survey. now intros ->. Qed.

(** The first submission of a pair that is not completed yet: it is accepted,
    and the state it commits is the account upsert followed by the answer
    rows and by the rows of the reward block. *)
Lemma submit_first (rq : submission) (d dU : db) (userId : uuid) (s : survey) :
  upsert_user (tempEmail rq) (sb_user_ip rq) (sb_user_agent rq)
              (referralCode rq) (sb_uuid rq) (sb_sql_now rq) d = inr (userId, dU) ->
  select_survey (sb_survey_id rq) d = Some s ->
  has_completed userId (sb_survey_id rq) d = false ->
  has_responses_for userId (sb_survey_id rq) d = false ->
  NoDup (map fst (sb_responses rq)) ->
  NoDup (map q_id (survey_questions d)) ->
  submitSurvey rq d
  = (inr (mkSubmitOk userId
            (List.length (matched_entries (sb_survey_id rq) (sb_responses rq) d))),
     reward_writes rq userId s
       (map fst (matched_entries (sb_survey_id rq) (sb_responses rq) d))
       (answers_writes rq userId dU)).
Proof.
  intros Hup Hs Hdone Hresp Hkeys Hids.
  destruct (upsert_user_tables _ _ _ _ _ _ _ _ _ Hup) as (HsU & HqU & HrU & HcU & _).
  unfold submitSurvey, run_tx. rewrite submit_body_unfold, Hup.
  rewrite (has_completed_ext _ _ d dU HcU), Hdone.
  rewrite save_responses_ok.
  - fold (answers_writes rq userId dU).
    rewrite (select_survey_ext _ dU (answers_writes rq userId dU) eq_refl).
    rewrite (select_survey_ext _ d dU HsU), Hs.
    rewrite (has_completed_ext _ _ dU (answers_writes rq userId dU) eq_refl).
    rewrite (has_completed_ext _ _ d dU HcU), Hdone.
    rewrite (matched_entries_ext _ _ d dU HqU), length_map. reflexivity.
  - exact Hkeys.
  - now rewrite HqU.
  - intros k a q _ _. apply has_responses_for_false.
    unfold has_responses_for. now rewrite HrU.
Qed.

(** A submission for a pair that is already completed is rejected and rolled
    back. *)
Lemma submit_again (rq : submission) (d : db) (userId : uuid) :
  (exists u, find_user_by_email (tempEmail rq) d = Some u /\ u_id u = userId) ->
  has_completed userId (sb_survey_id rq) d = true ->
  submitSurvey rq d = (inl AlreadyCompleted, d).
Proof.
  intros (u & Hfind & Hid) Hdone.
  unfold submitSurvey, run_tx. rewrite submit_body_unfold.
  unfold upsert_user. rewrite Hfind, Hid.
  rewrite (has_completed_ext _ _ d (set_users _ d) eq_refl), Hdone. reflexivity.
Qed.

Lemma run_submissions_again (rqs : list submission) (d : db)
      (email : string) (surveyId : Z) (userId : uuid) :
  (exists u, find_user_by_email email d = Some u /\ u_id u = userId) ->
  has_completed userId surveyId d = true ->
  Forall (fun rq => tempEmail rq = email /\ sb_survey_id rq = surveyId) rqs ->
  run_submissions rqs d = (map (fun _ => inl AlreadyCompleted) rqs, d).
Proof.
  intros Hres Hdone. induction rqs as [|rq rest IH]; intros Hall; cbn; [reflexivity|].
  destruct (Forall_inv Hall) as [He Hs].
  rewrite (submit_again rq d userId); [|now rewrite He|now rewrite Hs].
  rewrite (IH (Forall_inv_tail Hall)). reflexivity.
Qed.

(** After an accepted submission the pair is completed and the contact key
    still resolves to the same account. *)
Lemma reward_writes_completed rq userId s saved d :
  has_completed userId (sb_survey_id rq) (reward_writes rq userId s saved d) = true.
Proof.
  unfold has_completed, reward_writes. cbn [user_completed_surveys].
  rewrite existsb_app. cbn. rewrite Nat.eqb_refl, Z.eqb_refl.
  now rewrite orb_true_r.
Qed.

Lemma reward_writes_resolves rq userId s saved d email u :
  find_user_by_email email d = Some u -> u_id u = userId ->
  exists u', find_user_by_email email (reward_writes rq userId s saved d) = Some u'
             /\ u_id u' = userId.
Proof.
  intros Hfind Hid. unfold find_user_by_email, reward_writes in *. cbn [users].
  rewrite find_map_preserved.
  - rewrite Hfind. cbn. eexists. split; [reflexivity|].
    rewrite Hid, Nat.eqb_refl. exact Hid.
  - intros x. now destruct (Nat.eqb (u_id x) userId).
Qed.

Lemma count_after_append {A} (p : A -> bool) (l : list A) (x : A) :
  existsb p l = false -> p x = true ->
  List.length (filter p (l ++ [x])) = 1%nat.
Proof.
  intros Hl Hx. rewrite filter_app, (existsb_false_filter _ _ Hl). cbn.
  now rewrite Hx.
Qed.

Lemma filter_nil_existsb {A} (p : A -> bool) (l : list A) :
  List.length (filter p l) = 0%nat -> existsb p l = false.
Proof.
  induction l as [|x l IH]; cbn; [reflexivity|].
  destruct (p x); cbn; [discriminate|exact IH].
Qed.

Ltac nodup_list :=
  repeat (constructor; [cbn; intuition congruence|]); constructor.

(** C4.  For a pair of an account and a survey that is not completed yet, any
    number of submissions for the pair, handled one after the other
    (submissions for one contact key are serialised by the row lock that the
    account upsert, the first statement of the transaction, takes), leaves
    exactly one completion record and exactly one reward credit for the pair:
    the first submission is accepted, every later one fails with
    [AlreadyCompleted] and is rolled back, so the state after all of them is
    the state committed by the first.  The submissions are such as the
    tables can store: their values fit the columns, and the reward and the
    balance it leads to are [DECIMAL(10,2)] values. *)
Theorem one_reward_per_account_and_survey
        (d : db) (rq0 : submission) (rqs : list submission)
        (userId : uuid) (s : survey) :
  submission_fits rq0 = true ->
  resolved_id rq0 d = Some userId ->
  select_survey (sb_survey_id rq0) d = Some s ->
  fits_decimal_10_2 (s_reward_amount s) = true ->
  fits_decimal_10_2
    (completed_ledger_sum (transactions d ++ [reward_transaction userId s]) userId)
  = true ->
  has_completed userId (sb_survey_id rq0) d = false ->
  has_responses_for userId (sb_survey_id rq0) d = false ->
  count_rewards userId (s_survey_key s) d = 0%nat ->
  NoDup (map fst (sb_responses rq0)) ->
  NoDup (map q_id (survey_questions d)) ->
  Forall (fun rq => tempEmail rq = tempEmail rq0
                    /\ sb_survey_id rq = sb_survey_id rq0
                    /\ is_ipv4 (sb_user_ip rq) = true
                    /\ no_nul (sb_user_agent rq) = true) rqs ->
  exists (n : nat) (d1 : db),
    submitSurvey rq0 d = (inr (mkSubmitOk userId n), d1)
    /\ run_submissions (rq0 :: rqs) d
       = (inr (mkSubmitOk userId n) :: map (fun _ => inl AlreadyCompleted) rqs, d1)
    /\ count_completions userId (sb_survey_id rq0) d1 = 1%nat
    /\ count_rewards userId (s_survey_key s) d1 = 1%nat
    /\ (forall rq, tempEmail rq = tempEmail rq0 ->
                   sb_survey_id rq = sb_survey_id rq0 ->
                   is_ipv4 (sb_user_ip rq) = true ->
                   no_nul (sb_user_agent rq) = true ->
                   submitSurvey rq d1 = (inl AlreadyCompleted, d1)).
Proof.
  intros _ Hres Hs _ _ Hdone Hresp Hrew Hkeys Hids Hfit.
  assert (Hall : Forall (fun rq => tempEmail rq = tempEmail rq0
                                   /\ sb_survey_id rq = sb_survey_id rq0) rqs).
  { eapply Forall_impl; [|exact Hfit]. intros rq (He & Hsid & _). now split. }
  unfold resolved_id in Hres.
  destruct (upsert_user _ _ _ _ _ _ d) as [e|[uid dU]] eqn:Hup; [discriminate|].
  injection Hres as ->.
  pose proof (submit_first rq0 d dU userId s Hup Hs Hdone Hresp Hkeys Hids) as Hfirst.
  destruct (upsert_user_tables _ _ _ _ _ _ _ _ _ Hup) as (_ & _ & _ & HcU & HtU).
  destruct (upsert_user_resolves _ _ _ _ _ _ _ _ _ Hup) as ((u & Hfind & Hid) & _).
  set (saved := map fst (matched_entries (sb_survey_id rq0) (sb_responses rq0) d)) in *.
  set (d1 := reward_writes rq0 userId s saved (answers_writes rq0 userId dU)) in *.
  assert (Hdone1 : has_completed userId (sb_survey_id rq0) d1 = true)
    by apply reward_writes_completed.
  assert (Hres1 : exists u', find_user_by_email (tempEmail rq0) d1 = Some u'
                             /\ u_id u' = userId).
  { apply (reward_writes_resolves _ _ _ _ _ _ u); [exact Hfind|exact Hid]. }
  exists (List.length (matched_entries (sb_survey_id rq0) (sb_responses rq0) d)), d1.
  split; [exact Hfirst|]. split; [|split; [|split]].
  - cbn [run_submissions]. rewrite Hfirst.
    rewrite (run_submissions_again rqs d1 (tempEmail rq0) (sb_survey_id rq0) userId
               Hres1 Hdone1 Hall).
    reflexivity.
  - unfold count_completions, d1, reward_writes, answers_writes.
    cbn [user_completed_surveys set_user_survey_responses].
    apply count_after_append.
    + rewrite HcU. exact Hdone.
    + unfold is_completion_of. cbn. now rewrite Nat.eqb_refl, Z.eqb_refl.
  - unfold count_rewards, d1, reward_writes, answers_writes.
    cbn [transactions set_user_survey_responses].
    apply count_after_append.
    + rewrite HtU. now apply filter_nil_existsb.
    + unfold is_reward_of. cbn. now rewrite Nat.eqb_refl, String.eqb_refl.
  - intros rq He Hsid _ _. apply (submit_again rq d1 userId).
    + now rewrite He.
    + now rewrite Hsid.
Qed.

Lemma one_reward_per_account_and_survey_witness :
  submission_fits Ex.alice_first = true
  /\ resolved_id Ex.alice_first Ex.empty_db = Some 7%nat
  /\ select_survey (sb_survey_id Ex.alice_first) Ex.empty_db = Some Ex.main_survey
  /\ fits_decimal_10_2
       (completed_ledger_sum
          (transactions Ex.empty_db ++ [reward_transaction 7%nat Ex.main_survey])
          7%nat) = true
  /\ exists (n : nat) (d1 : db),
       run_submissions [Ex.alice_first; Ex.alice_retry; Ex.alice_first] Ex.empty_db
       = ([inr (mkSubmitOk 7%nat n); inl AlreadyCompleted; inl AlreadyCompleted], d1)
       /\ count_completions 7%nat 1 d1 = 1%nat
       /\ count_rewards 7%nat "main_survey" d1 = 1%nat.
Proof.
  split; [reflexivity|]. split; [reflexivity|]. split; [reflexivity|].
  split; [reflexivity|].
  destruct (one_reward_per_account_and_survey
              Ex.empty_db Ex.alice_first [Ex.alice_retry; Ex.alice_first]
              7%nat Ex.main_survey)
    as (n & d1 & _ & Hrun & Hc & Hr & _).
  - reflexivity.
  - reflexivity.
  - reflexivity.
  - reflexivity.
  - reflexivity.
  - reflexivity.
  - reflexivity.
  - reflexivity.
  - nodup_list.
  - nodup_list.
  - repeat constructor.
  - exists n, d1. split; [exact Hrun|]. split; [exact Hc|exact Hr].
Defined.

(** ** Identity resolution *)


Lemma find_user_by_email_none (email : string) (d : db) :
  find_user_by_email email d = None -> ~ In email (map u_email (users d)).
Proof.
  unfold find_user_by_email. intros Hnone Hin.
  apply in_map_iff in Hin as (v & Hv & Hin).
  apply (find_none _ _ Hnone) in Hin. rewrite Hv, String.eqb_refl in Hin.
  discriminate.
Qed.

Lemma NoDup_snoc {A} (l : list A) (x : A) :
  NoDup l -> ~ In x l -> NoDup (l ++ [x]).
Proof.
  induction l as [|y l IH]; cbn; intros Hnd Hx.
  - constructor; [tauto|constructor].
  - inversion Hnd as [|? ? Hy Hnd']; subst. constructor.
    + rewrite in_app_iff. cbn. intuition congruence.
    + apply IH; tauto.
Qed.







(** ** The referral bonus *)


Lemma bonus_entries_none_received (user_uuid : uuid) (d : db) :
  bonus_entries user_uuid d = [] -> Schema001.already_received user_uuid d = false.
Proof.
  unfold bonus_entries, Schema001.already_received.
  induction (transactions d) as [|t ts IH]; cbn; [reflexivity|].
  destruct (Nat.eqb (t_user_id t) user_uuid && tx_type_eqb (t_type t) referral_bonus);
    [discriminate|]. cbn. exact IH.
Qed.



(** The balance written by the granting invocation comes from
    [get_user_balance] of part_001, whose difference of two sums is NULL, and
    so 0.00 after [COALESCE], as long as the account has no completed
    withdrawal: Alice's stored balance drops from 5.00 to 0.00 while her
    completed credits add up to 15.00. *)
Lemma bonus_balance_update_null :
  select_balance 7%nat Ex.referrer_db = Some 500
  /\ select_balance 7%nat (snd (Schema001.call_check_referral_bonus 7%nat Ex.referrer_db))
     = Some 0
  /\ completed_ledger_sum
       (transactions (snd (Schema001.call_check_referral_bonus 7%nat Ex.referrer_db)))
       7%nat = 1500.
Proof. repeat split. Qed.





(** ** Anonymous submissions *)

Lemma string_of_uint_no_underscore (u : Decimal.uint) :
  no_underscore (NilEmpty.string_of_uint u) = true.
Proof. induction u; cbn; auto. Qed.

Lemma dec_no_underscore (n : N) : no_underscore (dec n) = true.
Proof. apply string_of_uint_no_underscore. Qed.

Lemma dec_injective (n m : N) : dec n = dec m -> n = m.
Proof.
  unfold dec. intros H. apply DecimalN.Unsigned.to_uint_inj.
  apply (f_equal NilEmpty.uint_of_string) in H.
  rewrite !NilEmpty.usu in H. now injection H.
Qed.

(** Two texts that begin with an underscore-free word followed by an
    underscore begin with the same word. *)
Lemma underscore_split (a b x y : string) :
  no_underscore a = true -> no_underscore b = true ->
  (a ++ String "_" x)%string = (b ++ String "_" y)%string -> a = b.
Proof.
  revert b. induction a as [|c a IH]; intros [|c' b]; cbn; intros Ha Hb Heq.
  - reflexivity.
  - injection Heq as Hc _. subst c'. cbn in Hb. discriminate.
  - injection Heq as Hc _. subst c. cbn in Ha. discriminate.
  - injection Heq as Hc Hrest. subst c'.
    apply andb_prop in Ha as [_ Ha]. apply andb_prop in Hb as [_ Hb].
    f_equal. now apply IH.
Qed.

(** Distinct clock readings give distinct synthesized contact keys. *)
Lemma synth_email_injective (t1 t2 : N) (ip1 ip2 : string) :
  synth_email t1 ip1 = synth_email t2 ip2 -> t1 = t2.
Proof.
  unfold synth_email. cbn. intros H.
  injection H as H. apply dec_injective.
  apply (underscore_split _ _ _ _ (dec_no_underscore t1) (dec_no_underscore t2) H).
Qed.



(** C10.  Two anonymous submissions at distinct clock readings do get
    distinct contact keys, but the referral code of a new account is "REF"
    followed by the last six digits of the clock: readings that agree on
    those digits give the same code, the second insert violates
    [users.referral_code UNIQUE], and the second submission is rolled back,
    with no account created and no reward credited. *)
Theorem anonymous_referral_code_collision :
  (sb_user_email Ex.anon_1 = None /\ sb_user_email Ex.anon_2 = None)
  /\ sb_now_email Ex.anon_1 <> sb_now_email Ex.anon_2
  /\ tempEmail Ex.anon_1 <> tempEmail Ex.anon_2
  /\ (referralCode Ex.anon_1 = "REF000000" /\ referralCode Ex.anon_2 = "REF000000")
  /\ run_submissions [Ex.anon_1; Ex.anon_2] Ex.empty_db
     = ([inr (mkSubmitOk 31%nat 1); inl (StorageFailure users_referral_code_key)],
        snd (submitSurvey Ex.anon_1 Ex.empty_db))
  /\ map u_id (users (snd (run_submissions [Ex.anon_1; Ex.anon_2] Ex.empty_db)))
     = [31%nat]
  /\ count_rewards 32%nat "main_survey"
       (snd (run_submissions [Ex.anon_1; Ex.anon_2] Ex.empty_db)) = 0%nat.
Proof.
  split; [split; reflexivity|].
  split; [discriminate|].
  split; [discriminate|].
  split; [split; reflexivity|].
  split; [reflexivity|].
  split; reflexivity.
Qed.




Section AnonymousPair.

(** Two anonymous submissions for one existing survey, read at distinct
    clock values, each bringing a UUID and a referral code that are not
    in use, for a pair that is not completed. *)
Variables (d : db) (rq1 rq2 : submission) (s : survey).

Hypothesis anon1 : sb_user_email rq1 = None.
Hypothesis anon2 : sb_user_email rq2 = None.
Hypothesis clocks : sb_now_email rq1 <> sb_now_email rq2.
Hypothesis same_survey : sb_survey_id rq2 = sb_survey_id rq1.
Hypothesis survey_exists : select_survey (sb_survey_id rq1) d = Some s.

Hypothesis key1_free : find_user_by_email (tempEmail rq1) d = None.
Hypothesis key2_free : find_user_by_email (tempEmail rq2) d = None.
Hypothesis uuid1_free :
  existsb (fun u => Nat.eqb (u_id u) (sb_uuid rq1)) (users d) = false.
Hypothesis uuid2_free :
  existsb (fun u => Nat.eqb (u_id u) (sb_uuid rq2)) (users d) = false.
Hypothesis uuids : sb_uuid rq1 <> sb_uuid rq2.
Hypothesis code1_free :
  existsb (fun u => (u_referral_code u =? referralCode rq1)%string) (users d) = false.
Hypothesis code2_free :
  existsb (fun u => (u_referral_code u =? referralCode rq2)%string) (users d) = false.
Hypothesis codes : referralCode rq1 <> referralCode rq2.

Hypothesis fresh1 :
  has_completed (sb_uuid rq1) (sb_survey_id rq1) d = false
  /\ has_responses_for (sb_uuid rq1) (sb_survey_id rq1) d = false
  /\ count_rewards (sb_uuid rq1) (s_survey_key s) d = 0%nat.
Hypothesis fresh2 :
  has_completed (sb_uuid rq2) (sb_survey_id rq1) d = false
  /\ has_responses_for (sb_uuid rq2) (sb_survey_id rq1) d = false
  /\ count_rewards (sb_uuid rq2) (s_survey_key s) d = 0%nat.

Hypothesis keys1 : NoDup (map fst (sb_responses rq1)).
Hypothesis keys2 : NoDup (map fst (sb_responses rq2)).
Hypothesis question_ids : NoDup (map q_id (survey_questions d)).



End AnonymousPair.

(** ** The stored balance along the routes *)

Lemma completed_ledger_sum_snoc (ts : list transaction) (t : transaction)
      (account : uuid) :
  completed_ledger_sum (ts ++ [t]) account
  = completed_ledger_sum ts account
    + (if Nat.eqb (t_user_id t) account && tx_status_eqb (t_status t) completed
       then case_amount t else 0).
Proof.
  unfold completed_ledger_sum. rewrite filter_app, map_app, sum_app. cbn.
  destruct (Nat.eqb (t_user_id t) account && tx_status_eqb (t_status t) completed);
    cbn; lia.
Qed.

Lemma completed_ledger_sum_unreferenced (d : db) (account : uuid) :
  fk_transactions d ->
  existsb (fun u => Nat.eqb (u_id u) account) (users d) = false ->
  completed_ledger_sum (transactions d) account = 0.
Proof.
  intros Hfk Hfree. unfold completed_ledger_sum.
  rewrite (existsb_false_filter _ (transactions d)); [reflexivity|].
  destruct (existsb _ (transactions d)) eqn:Hex; [|reflexivity].
  apply existsb_exists in Hex as (t & Hin & Ht).
  apply andb_prop in Ht as [Hid _]. apply Nat.eqb_eq in Hid.
  specialize (Hfk t Hin). rewrite Hid in Hfk. congruence.
Qed.

Lemma existsb_id_map_if (p : user -> bool) (f : user -> user) (us : list user)
      (account : uuid) :
  (forall v, u_id (f v) = u_id v) ->
  existsb (fun u => Nat.eqb (u_id u) account) (map (fun v => if p v then f v else v) us)
  = existsb (fun u => Nat.eqb (u_id u) account) us.
Proof.
  intros Hf. induction us as [|v us IH]; cbn; [reflexivity|].
  rewrite IH. destruct (p v); [now rewrite Hf|reflexivity].
Qed.

Lemma ledger_consistent_upsert email ip ua code fresh now d userId dU :
  ledger_consistent d ->
  upsert_user email ip ua code fresh now d = inr (userId, dU) ->
  ledger_consistent dU.
Proof.
  intros [Hfk Hbal]. unfold upsert_user.
  destruct (find_user_by_email email d).
  - intros H. injection H as _ <-. split.
    + intros t Hin. cbn [users transactions set_users] in *.
      rewrite existsb_id_map_if; [now apply Hfk|reflexivity].
    + intros v Hin. cbn [users transactions set_users] in *.
      apply in_map_iff in Hin as (w & <- & Hw).
      destruct (u_email w =? email)%string; cbn; now apply Hbal.
  - destruct (existsb (fun u => Nat.eqb (u_id u) fresh) (users d)) eqn:Hfresh;
      [discriminate|].
    destruct (existsb (fun u => (u_referral_code u =? code)%string) (users d));
      [discriminate|].
    intros H. injection H as _ <-. split.
    + intros t Hin. cbn [users transactions set_users] in *.
      rewrite existsb_app, (Hfk t Hin). reflexivity.
    + intros v Hin. cbn [users transactions set_users] in *.
      apply in_app_or in Hin as [Hin|[<-|[]]]; [now apply Hbal|].
      cbn. symmetry. now apply completed_ledger_sum_unreferenced.
Qed.

Lemma ledger_consistent_frame (d d' : db) :
  users d' = users d -> transactions d' = transactions d ->
  ledger_consistent d -> ledger_consistent d'.
Proof.
  unfold ledger_consistent, fk_transactions, balances_cached.
  intros -> ->. tauto.
Qed.

Lemma ledger_consistent_reward rq userId s saved d :
  ledger_consistent d ->
  find_user userId d <> None ->
  ledger_consistent (reward_writes rq userId s saved d).
Proof.
  intros [Hfk Hbal] Hex. split.
  - intros t Hin. unfold reward_writes in *. cbn [users transactions] in *.
    rewrite existsb_id_map_if by reflexivity.
    apply in_app_or in Hin as [Hin|[<-|[]]]; [now apply Hfk|].
    cbn [t_user_id reward_transaction].
    unfold find_user in Hex. rewrite find_none_existsb in Hex.
    now destruct (existsb _ (users d)).
  - intros v Hin. unfold reward_writes in *. cbn [users transactions] in *.
    apply in_map_iff in Hin as (w & <- & Hw).
    destruct (Nat.eqb_spec (u_id w) userId) as [Heq|Hne]; cbn [u_balance u_id set_balance].
    + now rewrite Heq.
    + rewrite completed_ledger_sum_snoc. cbn [t_user_id reward_transaction].
      rewrite (proj2 (Nat.eqb_neq userId (u_id w))) by congruence.
      cbn. rewrite (Hbal w Hw). lia.
Qed.

Lemma ledger_consistent_submit (rq : submission) (d : db) :
  ledger_consistent d -> ledger_consistent (snd (submitSurvey rq d)).
Proof.
  intros Hd. unfold submitSurvey, run_tx. rewrite submit_body_unfold.
  destruct (upsert_user _ _ _ _ _ _ d) as [e|[userId dU]] eqn:Hup; [exact Hd|].
  pose proof (ledger_consistent_upsert _ _ _ _ _ _ _ _ _ Hd Hup) as HdU.
  destruct (has_completed userId (sb_survey_id rq) dU); [exact Hd|].
  destruct (save_responses _ _ _ dU) as [e|[saved dS]] eqn:Hsave; [exact Hd|].
  destruct (save_responses_tables _ _ _ _ _ _ Hsave) as (HuS & _ & _ & _ & HtS).
  pose proof (ledger_consistent_frame dU dS HuS HtS HdU) as HdS.
  destruct (select_survey (sb_survey_id rq) dS) as [s|]; [|exact HdS].
  destruct (has_completed userId (sb_survey_id rq) dS); [exact Hd|].
  cbn [snd]. apply ledger_consistent_reward; [exact HdS|].
  unfold find_user. rewrite HuS.
  apply (upsert_user_resolves _ _ _ _ _ _ _ _ _ Hup).
Qed.

Lemma ledger_consistent_withdrawal (rq : withdrawal_body) (d : db) :
  ledger_consistent d -> ledger_consistent (snd (requestWithdrawal rq d)).
Proof.
  intros [Hfk Hbal]. rewrite requestWithdrawal_eq.
  destruct (withdrawal_decision (select_balance (wb_user_id rq) d) rq) as [e|[]] eqn:Hdec;
    [now split|].
  destruct (wb_paypal_email rq) as [p|]; [|now split]. cbn [snd].
  split.
  - intros t Hin. unfold withdrawal_writes in *. cbn [users transactions] in *.
    apply in_app_or in Hin as [Hin|[<-|[]]]; [now apply Hfk|].
    cbn [t_user_id withdrawal_transaction].
    unfold withdrawal_decision, select_balance, find_user in Hdec.
    destruct (find _ (users d)) as [u|] eqn:Hfind; [|discriminate].
    apply find_some in Hfind. apply existsb_exists. now exists u.
  - intros v Hin. unfold withdrawal_writes in *. cbn [users transactions] in *.
    rewrite completed_ledger_sum_snoc. cbn [t_status withdrawal_transaction].
    rewrite andb_false_r, (Hbal v Hin). lia.
Qed.

Lemma ledger_consistent_run (rs : list request) (d : db) :
  ledger_consistent d -> ledger_consistent (run_requests rs d).
Proof.
  revert d. induction rs as [|r rs IH]; intros d Hd; [exact Hd|].
  cbn. apply IH. destruct r as [rq|rq].
  - now apply ledger_consistent_submit.
  - now apply ledger_consistent_withdrawal.
Qed.

(** C1, as stated, fails on both balances of the code.  After Alice's
    pending request the balance cached for her is still 5.00 while the
    balance of section 4.2 is 0.00; and once a request is marked failed,
    [get_user_balance] of schema.sql still deducts it. *)
Lemma ledger_balance_counterexample :
  (select_balance 7%nat Ex.pending_db = Some 500
   /\ completed_ledger_sum (transactions Ex.pending_db) 7%nat = 500
   /\ spec_balance (transactions Ex.pending_db) 7%nat = 0)
  /\ (Schema.get_user_balance Ex.failed_ledger 7%nat = 0
      /\ spec_balance Ex.failed_ledger 7%nat = 500).
Proof. repeat split. Qed.

(** C1 (amended).  In every state reached through the submit and withdrawal
    routes, the balance stored for an account (the [users.balance] column)
    equals the sum over the account's ledger entries with status completed
    of the credit amounts minus the withdrawal amounts.  Pending entries,
    pending withdrawal debits among them, are not counted, nor are failed or
    cancelled ones: the stored balance is the balance of section 4.2 less the
    signed sum of the account's pending entries. *)
Theorem stored_balance_is_completed_ledger_sum
        (d : db) (rs : list request) (u : user) :
  ledger_consistent d ->
  In u (users (run_requests rs d)) ->
  u_balance u
  = ledger_sum_where (fun st => tx_status_eqb st completed)
                     (transactions (run_requests rs d)) (u_id u)
  /\ u_balance u
     = spec_balance (transactions (run_requests rs d)) (u_id u)
       - ledger_sum_where is_pending (transactions (run_requests rs d)) (u_id u).
Proof.
  intros Hd Hin.
  destruct (ledger_consistent_run rs d Hd) as [_ Hbal].
  rewrite <- completed_ledger_sum_spec, <- completed_ledger_sum_where.
  split; now apply Hbal.
Qed.

Lemma stored_balance_is_completed_ledger_sum_witness :
  ledger_consistent Ex.empty_db
  /\ users (run_requests [Submit Ex.alice_first; Withdraw Ex.withdraw_5;
                          Submit Ex.bob_submission] Ex.empty_db)
     = [set_balance 500 (mkUser 7%nat "alice@example.org" 0 "REF000123" "10.0.0.1"
                                "curl" 1700000000123 1700000000123);
        set_balance 500 (mkUser 8%nat "bob@example.org" 0 "REF456789" "10.0.0.1"
                                "curl" 1700000456789 1700000456789)]
  /\ 500 = ledger_sum_where (fun st => tx_status_eqb st completed)
             (transactions (run_requests [Submit Ex.alice_first; Withdraw Ex.withdraw_5;
                                          Submit Ex.bob_submission] Ex.empty_db))
             7%nat.
Proof.
  assert (ledger_consistent Ex.empty_db) as Hd.
  { split; intros x Hin; destruct Hin. }
  split; [exact Hd|]. split; [vm_compute; reflexivity|].
  refine (proj1 (stored_balance_is_completed_ledger_sum
                   Ex.empty_db
                   [Submit Ex.alice_first; Withdraw Ex.withdraw_5; Submit Ex.bob_submission]
                   (set_balance 500 (mkUser 7%nat "alice@example.org" 0 "REF000123"
                                            "10.0.0.1" "curl"
                                            1700000000123 1700000000123))
                   Hd _)).
  vm_compute. left. reflexivity.
Defined.

(** * Further properties *)

(** ** One request, case by case *)

Lemma has_response_snoc userId surveyId questionId d (r : response) :
  has_response userId surveyId questionId
    (set_user_survey_responses (user_survey_responses d ++ [r]) d)
  = has_response userId surveyId questionId d
    || (Nat.eqb (r_user_id r) userId && (r_survey_id r =? surveyId)
        && (r_question_id r =? questionId)).
Proof.
  unfold has_response. cbn [user_survey_responses set_user_survey_responses].
  rewrite existsb_app. cbn. now rewrite orb_false_r.
Qed.

(** Whenever the answers loop goes through, it has appended one row per saved
    entry; the saved entries are entries of the request whose key names a
    question of the survey, and the rows are for pairwise distinct
    questions, none of which had an answer of the account before. *)
Lemma save_responses_rows userId surveyId entries d saved dS :
  save_responses userId surveyId entries d = inr (saved, dS) ->
  exists ms : list (string * answer * question),
    dS = set_user_survey_responses
           (user_survey_responses d ++ map (matched_row userId surveyId) ms) d
    /\ saved = map fst ms
    /\ NoDup (map (fun m => q_id (snd m)) ms)
    /\ (forall m, In m ms ->
                  In (fst m) entries
                  /\ select_question surveyId (fst (fst m)) d = Some (snd m)
                  /\ has_response userId surveyId (q_id (snd m)) d = false).
Proof.
  revert d saved dS. induction entries as [|[k a] rest IH]; intros d saved dS.
  - cbn. unfold ret. intros H. injection H as <- <-.
    exists []. cbn. rewrite app_nil_r. repeat split; [now destruct d|constructor|tauto|tauto|tauto].
  - rewrite save_responses_cons.
    destruct (select_question surveyId k d) as [q|] eqn:Hsel.
    + destruct (has_response userId surveyId (q_id q) d) eqn:Hfree; [discriminate|].
      set (d1 := set_user_survey_responses
                   (user_survey_responses d ++ [response_row userId surveyId q a]) d).
      destruct (save_responses userId surveyId rest d1) as [e|[saved' dS']] eqn:Hrest;
        [discriminate|].
      intros H. injection H as <- <-.
      destruct (IH _ _ _ Hrest) as (ms & HdS & Hsaved & Hnd & Hms).
      exists ((k, a, q) :: ms). split; [|split; [|split]].
      * rewrite HdS. unfold d1, set_user_survey_responses.
        cbn [users surveys survey_questions user_survey_responses
             user_completed_surveys transactions withdrawal_requests
             activity_logs referrals system_config map matched_row fst snd].
        now rewrite <- app_assoc.
      * cbn. now rewrite Hsaved.
      * cbn [map snd]. constructor; [|exact Hnd].
        intros Hin. apply in_map_iff in Hin as (m & Hid & Hm).
        destruct (Hms m Hm) as (_ & _ & Hfree1).
        unfold d1 in Hfree1. rewrite has_response_snoc in Hfree1.
        apply orb_false_elim in Hfree1 as [_ Hrow].
        cbn [response_row r_user_id r_survey_id r_question_id] in Hrow.
        rewrite Nat.eqb_refl, Z.eqb_refl, <- Hid, Z.eqb_refl in Hrow. discriminate.
      * intros m [<-|Hm].
        -- cbn. repeat split; [now left|exact Hsel|exact Hfree].
        -- destruct (Hms m Hm) as (Hin & Hsel1 & Hfree1). repeat split.
           ++ now right.
           ++ exact Hsel1.
           ++ unfold d1 in Hfree1. rewrite has_response_snoc in Hfree1.
              now apply orb_false_elim in Hfree1 as [H _].
    + intros H. destruct (IH _ _ _ H) as (ms & HdS & Hsaved & Hnd & Hms).
      exists ms. repeat split; try assumption;
        destruct (Hms m H0) as (Hin & Hsel1 & Hfree1); [now right|exact Hsel1|exact Hfree1].
Qed.

Lemma save_responses_error userId surveyId entries d e :
  save_responses userId surveyId entries d = inl e ->
  e = StorageFailure user_survey_responses_key.
Proof.
  revert d. induction entries as [|[k a] rest IH]; intros d; [discriminate|].
  rewrite save_responses_cons.
  destruct (select_question surveyId k d) as [q|]; [|apply IH].
  destruct (has_response userId surveyId (q_id q) d); [now intros [= <-]|].
  destruct (save_responses userId surveyId rest _) as [e'|[saved dS]] eqn:Hrest;
    [|discriminate].
  intros [= <-]. now apply IH in Hrest.
Qed.

Lemma upsert_user_error email ip ua code fresh now d e :
  upsert_user email ip ua code fresh now d = inl e ->
  find_user_by_email email d = None
  /\ (e = StorageFailure users_pkey \/ e = StorageFailure users_referral_code_key).
Proof.
  unfold upsert_user.
  destruct (find_user_by_email email d); [discriminate|].
  destruct (existsb (fun u => Nat.eqb (u_id u) fresh) (users d));
    [intros [= <-]; auto|].
  destruct (existsb (fun u => (u_referral_code u =? code)%string) (users d));
    [intros [= <-]; auto|discriminate].
Qed.

(** The two ways the account upsert succeeds. *)
Lemma upsert_user_cases email ip ua code fresh now d userId dU :
  upsert_user email ip ua code fresh now d = inr (userId, dU) ->
  (exists u, find_user_by_email email d = Some u /\ userId = u_id u
             /\ users dU = map (fun v => if (u_email v =? email)%string
                                         then refresh ip ua now v else v) (users d))
  \/ (find_user_by_email email d = None /\ userId = fresh
      /\ existsb (fun u => Nat.eqb (u_id u) fresh) (users d) = false
      /\ existsb (fun u => (u_referral_code u =? code)%string) (users d) = false
      /\ users dU = users d ++ [mkUser fresh email 0 code ip ua now now]).
Proof.
  unfold upsert_user.
  destruct (find_user_by_email email d) as [u|].
  - intros [= <- <-]. left. exists u. now repeat split.
  - destruct (existsb (fun u => Nat.eqb (u_id u) fresh) (users d)); [discriminate|].
    destruct (existsb (fun u => (u_referral_code u =? code)%string) (users d));
      [discriminate|].
    intros [= <- <-]. right. now repeat split.
Qed.

(** Every submission either fails, with [AlreadyCompleted] or a storage
    error, and leaves the database as it was, or is accepted: then the
    account was resolved, the pair was not completed, answer rows were
    appended for some entries of the request, and the reward block ran when
    the survey exists. *)
Lemma submitSurvey_cases (rq : submission) (d : db) :
  (exists e, submitSurvey rq d = (inl e, d)
             /\ (e = AlreadyCompleted \/ exists c, e = StorageFailure c))
  \/ (exists userId dU ms,
         upsert_user (tempEmail rq) (sb_user_ip rq) (sb_user_agent rq)
                     (referralCode rq) (sb_uuid rq) (sb_sql_now rq) d
         = inr (userId, dU)
         /\ has_completed userId (sb_survey_id rq) dU = false
         /\ NoDup (map (fun m => q_id (snd m)) ms)
         /\ (forall m, In m ms ->
                In (fst m) (sb_responses rq)
                /\ select_question (sb_survey_id rq) (fst (fst m)) dU = Some (snd m)
                /\ has_response userId (sb_survey_id rq) (q_id (snd m)) dU = false)
         /\ submitSurvey rq d
            = (inr (mkSubmitOk userId (List.length ms)),
               let dS := set_user_survey_responses
                           (user_survey_responses dU
                              ++ map (matched_row userId (sb_survey_id rq)) ms) dU in
               match select_survey (sb_survey_id rq) d with
               | Some s => reward_writes rq userId s (map fst ms) dS
               | None => dS
               end)).
Proof.
  unfold submitSurvey, run_tx. rewrite submit_body_unfold.
  destruct (upsert_user _ _ _ _ _ _ d) as [e|[userId dU]] eqn:Hup.
  { left. exists e. split; [reflexivity|].
    destruct (upsert_user_error _ _ _ _ _ _ _ _ Hup) as (_ & [->| ->]); eauto. }
  destruct (upsert_user_tables _ _ _ _ _ _ _ _ _ Hup) as (HsU & _ & _ & HcU & _).
  destruct (has_completed userId (sb_survey_id rq) dU) eqn:Hdone.
  { left. exists AlreadyCompleted. auto. }
  destruct (save_responses _ _ _ dU) as [e|[saved dS]] eqn:Hsave.
  { left. exists e. split; [reflexivity|].
    right. rewrite (save_responses_error _ _ _ _ _ Hsave). eauto. }
  destruct (save_responses_rows _ _ _ _ _ _ Hsave) as (ms & HdS & Hsaved & Hnd & Hms).
  rewrite (select_survey_ext _ dU dS) by now rewrite HdS.
  rewrite (select_survey_ext _ d dU HsU).
  rewrite (has_completed_ext _ _ dU dS) by now rewrite HdS.
  rewrite Hdone.
  right. exists userId, dU, ms. repeat split; try assumption;
    try (now apply Hms).
  rewrite Hsaved, length_map, <- HdS.
  now destruct (select_survey (sb_survey_id rq) d).
Qed.

(** ** The uniqueness constraints along the routes *)

Lemma map_proj_if {B} (g : user -> B) (p : user -> bool) (f : user -> user)
      (us : list user) :
  (forall v, g (f v) = g v) ->
  map g (map (fun v => if p v then f v else v) us) = map g us.
Proof.
  intros Hf. rewrite map_map. apply map_ext. intros v.
  destruct (p v); [apply Hf|reflexivity].
Qed.

Lemma existsb_id_notin (x : uuid) (us : list user) :
  existsb (fun u => Nat.eqb (u_id u) x) us = false -> ~ In x (map u_id us).
Proof.
  intros Hex Hin. apply in_map_iff in Hin as (v & Hv & Hin).
  assert (existsb (fun u => Nat.eqb (u_id u) x) us = true) as Ht.
  { apply existsb_exists. exists v. split; [exact Hin|now apply Nat.eqb_eq]. }
  congruence.
Qed.

Lemma existsb_code_notin (x : string) (us : list user) :
  existsb (fun u => (u_referral_code u =? x)%string) us = false ->
  ~ In x (map u_referral_code us).
Proof.
  intros Hex Hin. apply in_map_iff in Hin as (v & Hv & Hin).
  assert (existsb (fun u => (u_referral_code u =? x)%string) us = true) as Ht.
  { apply existsb_exists. exists v. split; [exact Hin|now apply String.eqb_eq]. }
  congruence.
Qed.

Lemma users_unique_upsert email ip ua code fresh now d userId dU :
  users_unique d ->
  upsert_user email ip ua code fresh now d = inr (userId, dU) ->
  users_unique dU.
Proof.
  intros (Hid & Hem & Hco) Hup. unfold users_unique.
  destruct (upsert_user_cases _ _ _ _ _ _ _ _ _ Hup)
    as [(u & _ & _ & ->)|(Hnone & _ & Hfresh & Hcode & ->)].
  - now rewrite !map_proj_if by reflexivity.
  - rewrite !map_app. cbn. repeat split; apply NoDup_snoc; try assumption.
    + now apply existsb_id_notin.
    + now apply find_user_by_email_none.
    + now apply existsb_code_notin.
Qed.

(** What a submission may do to a column of [users] that neither the refresh
    nor the balance update writes: nothing beyond the account upsert. *)
Lemma submitSurvey_users_column {B} (g : user -> B) (rq : submission) (d : db) :
  (forall b v, g (set_balance b v) = g v) ->
  map g (users (snd (submitSurvey rq d))) = map g (users d)
  \/ exists userId dU,
       upsert_user (tempEmail rq) (sb_user_ip rq) (sb_user_agent rq)
                   (referralCode rq) (sb_uuid rq) (sb_sql_now rq) d
       = inr (userId, dU)
       /\ map g (users (snd (submitSurvey rq d))) = map g (users dU).
Proof.
  intros Hg.
  destruct (submitSurvey_cases rq d)
    as [(e & -> & _)|(userId & dU & ms & Hup & _ & _ & _ & ->)]; [now left|].
  right. exists userId, dU. split; [exact Hup|]. cbn [snd].
  destruct (select_survey (sb_survey_id rq) d); [|reflexivity].
  unfold reward_writes. cbn [users set_user_survey_responses].
  apply map_proj_if. intros v. apply Hg.
Qed.

Lemma users_unique_submit (rq : submission) (d : db) :
  users_unique d -> users_unique (snd (submitSurvey rq d)).
Proof.
  intros Hd.
  assert (HdU : forall userId dU,
             upsert_user (tempEmail rq) (sb_user_ip rq) (sb_user_agent rq)
                         (referralCode rq) (sb_uuid rq) (sb_sql_now rq) d
             = inr (userId, dU) -> users_unique dU)
    by (intros; eapply users_unique_upsert; eauto).
  unfold users_unique in *.
  destruct (submitSurvey_users_column u_id rq d) as [->|(i & dU & Hup & ->)];
    [reflexivity| |];
  destruct (submitSurvey_users_column u_email rq d) as [->|(i' & dU' & Hup' & ->)];
    try reflexivity;
  destruct (submitSurvey_users_column u_referral_code rq d)
    as [->|(i'' & dU'' & Hup'' & ->)];
    try reflexivity;
  repeat match goal with
         | H : upsert_user _ _ _ _ _ _ d = inr _ |- _ =>
             apply HdU in H; destruct H as (? & ? & ?)
         end;
  tauto.
Qed.

Lemma users_unique_run (rs : list request) (d : db) :
  users_unique d -> users_unique (run_requests rs d).
Proof.
  revert d. induction rs as [|r rs IH]; intros d Hd; [exact Hd|].
  cbn. apply IH. destruct r as [rq|rq]; cbn [handle].
  - now apply users_unique_submit.
  - unfold users_unique in *. now rewrite requestWithdrawal_users.
Qed.

(** X1.  The primary key of [users] and the two UNIQUE columns, [email] and
    [referral_code], are kept by the routes: if no two accounts share an id,
    an email or a referral code, the same holds after any sequence of
    submissions and withdrawal requests, whether they were accepted or
    not. *)
Theorem users_stay_unique (rs : list request) (d : db) :
  NoDup (map u_id (users d)) ->
  NoDup (map u_email (users d)) ->
  NoDup (map u_referral_code (users d)) ->
  NoDup (map u_id (users (run_requests rs d)))
  /\ NoDup (map u_email (users (run_requests rs d)))
  /\ NoDup (map u_referral_code (users (run_requests rs d))).
Proof.
  intros Hid Hem Hco. apply (users_unique_run rs d). now repeat split.
Qed.

Lemma has_completed_notin userId surveyId d :
  has_completed userId surveyId d = false ->
  ~ In (userId, surveyId)
       (map (fun c => (c_user_id c, c_survey_id c)) (user_completed_surveys d)).
Proof.
  intros Hdone Hin. apply in_map_iff in Hin as (c & Hc & Hin).
  injection Hc as Hu Hs.
  assert (has_completed userId surveyId d = true) as Ht.
  { apply existsb_exists. exists c. split; [exact Hin|].
    now rewrite Hu, Hs, Nat.eqb_refl, Z.eqb_refl. }
  congruence.
Qed.

Lemma has_response_notin userId surveyId questionId d :
  has_response userId surveyId questionId d = false ->
  ~ In (userId, surveyId, questionId)
       (map (fun r => (r_user_id r, r_survey_id r, r_question_id r))
            (user_survey_responses d)).
Proof.
  intros Hfree Hin. apply in_map_iff in Hin as (r & Hr & Hin).
  injection Hr as Hu Hs Hq.
  assert (has_response userId surveyId questionId d = true) as Ht.
  { apply existsb_exists. exists r. split; [exact Hin|].
    now rewrite Hu, Hs, Hq, Nat.eqb_refl, !Z.eqb_refl. }
  congruence.
Qed.

Lemma matched_rows_keys userId surveyId (ms : list (string * answer * question)) :
  map (fun r => (r_user_id r, r_survey_id r, r_question_id r))
      (map (matched_row userId surveyId) ms)
  = map (fun m => (userId, surveyId, q_id (snd m))) ms.
Proof. rewrite map_map. apply map_ext. now intros [[k a] q]. Qed.

Lemma NoDup_map_injective {A B} (f : A -> B) (l : list A) :
  (forall x y, f x = f y -> x = y) -> NoDup l -> NoDup (map f l).
Proof.
  intros Hinj. induction 1 as [|x l Hx Hnd IH]; cbn; constructor; [|exact IH].
  intros Hin. apply in_map_iff in Hin as (y & Hy & Hin).
  apply Hinj in Hy. now subst y.
Qed.

Lemma constraints_submit (rq : submission) (d : db) :
  completions_unique d /\ responses_unique d ->
  completions_unique (snd (submitSurvey rq d))
  /\ responses_unique (snd (submitSurvey rq d)).
Proof.
  intros [Hc Hr].
  destruct (submitSurvey_cases rq d)
    as [(e & -> & _)|(userId & dU & ms & Hup & Hdone & Hnd & Hms & ->)];
    [now split|].
  destruct (upsert_user_tables _ _ _ _ _ _ _ _ _ Hup) as (_ & _ & HrU & HcU & _).
  assert (Hrows : NoDup (map (fun r => (r_user_id r, r_survey_id r, r_question_id r))
                             (user_survey_responses dU
                                ++ map (matched_row userId (sb_survey_id rq)) ms))).
  { rewrite map_app, matched_rows_keys. apply NoDup_app.
    - unfold responses_unique in Hr. now rewrite HrU.
    - rewrite <- (map_map (fun m => q_id (snd m))
                          (fun q => (userId, sb_survey_id rq, q))).
      apply NoDup_map_injective; [now intros x y [= ->]|exact Hnd].
    - intros key Hold Hnew. apply in_map_iff in Hnew as (m & <- & Hm).
      destruct (Hms m Hm) as (_ & _ & Hfree).
      now apply (has_response_notin _ _ _ _ Hfree). }
  cbn [snd]. unfold completions_unique, responses_unique in *.
  destruct (select_survey (sb_survey_id rq) d) as [s|].
  - unfold reward_writes.
    cbn [user_completed_surveys user_survey_responses set_user_survey_responses].
    split; [|exact Hrows].
    rewrite map_app. cbn. apply NoDup_snoc; [now rewrite HcU|].
    now apply has_completed_notin.
  - cbn [user_completed_surveys user_survey_responses set_user_survey_responses].
    split; [now rewrite HcU|exact Hrows].
Qed.

Lemma requestWithdrawal_tables (rq : withdrawal_body) (d : db) :
  let d' := snd (requestWithdrawal rq d) in
  users d' = users d /\ surveys d' = surveys d
  /\ survey_questions d' = survey_questions d
  /\ user_survey_responses d' = user_survey_responses d
  /\ user_completed_surveys d' = user_completed_surveys d
  /\ referrals d' = referrals d /\ system_config d' = system_config d.
Proof.
  cbn zeta. rewrite requestWithdrawal_eq.
  destruct (withdrawal_decision _ rq); [now repeat split|].
  destruct (wb_paypal_email rq); now repeat split.
Qed.

(** X2.  The routes keep [UNIQUE(user_id, survey_id)] of
    [user_completed_surveys] and [UNIQUE(user_id, survey_id, question_id)] of
    [user_survey_responses]: after any sequence of submissions and withdrawal
    requests no account has two completion records for one survey, nor two
    stored answers to one question of a survey. *)
Theorem completions_and_answers_stay_unique (rs : list request) (d : db) :
  completions_unique d -> responses_unique d ->
  completions_unique (run_requests rs d) /\ responses_unique (run_requests rs d).
Proof.
  revert d. induction rs as [|r rs IH]; intros d Hc Hr; [now split|].
  cbn. destruct r as [rq|rq]; cbn [handle].
  - destruct (constraints_submit rq d (conj Hc Hr)) as [Hc' Hr']. now apply IH.
  - destruct (requestWithdrawal_tables rq d) as (_ & _ & _ & Hr' & Hc' & _).
    apply IH; unfold completions_unique, responses_unique in *; congruence.
Qed.

(** ** Append-only tables *)

Lemma extends_refl {A} (l : list A) : extends l l.
Proof. exists []. now rewrite app_nil_r. Qed.

Lemma extends_app {A} (l rows : list A) : extends l (l ++ rows).
Proof. now exists rows. Qed.

Lemma extends_trans {A} (l1 l2 l3 : list A) :
  extends l1 l2 -> extends l2 l3 -> extends l1 l3.
Proof. intros [r1 ->] [r2 ->]. exists (r1 ++ r2). now rewrite app_assoc. Qed.

Lemma grows_refl (d : db) : grows d d.
Proof. unfold grows. repeat split; apply extends_refl. Qed.

Lemma grows_trans (d1 d2 d3 : db) : grows d1 d2 -> grows d2 d3 -> grows d1 d3.
Proof.
  unfold grows.
  intros (Ht & Hc & Hr & Hw & Ha & Hs & Hq & Hf & Hg)
         (Ht' & Hc' & Hr' & Hw' & Ha' & Hs' & Hq' & Hf' & Hg').
  repeat split; try (eapply extends_trans; eassumption); congruence.
Qed.

Lemma grows_submit (rq : submission) (d : db) : grows d (snd (submitSurvey rq d)).
Proof.
  destruct (submitSurvey_cases rq d)
    as [(e & -> & _)|(userId & dU & ms & Hup & _ & _ & _ & ->)];
    [apply grows_refl|].
  apply upsert_user_frame in Hup. rewrite Hup. cbn [snd]. unfold grows.
  destruct (select_survey (sb_survey_id rq) d) as [s|]; unfold reward_writes;
    cbn [users surveys survey_questions user_survey_responses
         user_completed_surveys transactions withdrawal_requests
         activity_logs referrals system_config set_users
         set_user_survey_responses];
    repeat split; try apply extends_refl; apply extends_app.
Qed.

Lemma grows_withdrawal (rq : withdrawal_body) (d : db) :
  grows d (snd (requestWithdrawal rq d)).
Proof.
  rewrite requestWithdrawal_eq.
  destruct (withdrawal_decision _ rq); [apply grows_refl|].
  destruct (wb_paypal_email rq); [|apply grows_refl].
  cbn [snd]. unfold grows, withdrawal_writes.
  cbn [users surveys survey_questions user_survey_responses
       user_completed_surveys transactions withdrawal_requests
       activity_logs referrals system_config].
  repeat split; try apply extends_refl; apply extends_app.
Qed.

(** X3.  The routes only append.  After any sequence of submissions and
    withdrawal requests every row that was in [transactions],
    [user_completed_surveys], [user_survey_responses], [withdrawal_requests]
    or [activity_logs] is still there, unchanged and in its place, followed
    by the new rows; [surveys], [survey_questions], [referrals] and
    [system_config] are never written. *)
Theorem routes_only_append (rs : list request) (d : db) :
  grows d (run_requests rs d).
Proof.
  revert d. induction rs as [|r rs IH]; intros d; [apply grows_refl|].
  cbn. eapply grows_trans; [|apply IH].
  destruct r as [rq|rq]; [apply grows_submit|apply grows_withdrawal].
Qed.

(** ** The amount credited *)

Lemma select_balance_map_if (p : user -> bool) (f : user -> user)
      (other : uuid) (us : list user) (d d' : db) :
  users d = us ->
  users d' = map (fun v => if p v then f v else v) us ->
  (forall v, u_id (f v) = u_id v) ->
  (forall v, u_id v = other -> p v = true -> u_balance (f v) = u_balance v) ->
  select_balance other d' = select_balance other d.
Proof.
  intros Hu Hu' Hid Hbal. unfold select_balance, find_user. rewrite Hu, Hu'.
  rewrite find_map_preserved.
  - destruct (find _ us) as [v|] eqn:Hf; [|reflexivity]. cbn.
    apply find_some in Hf as [_ Hv]. apply Nat.eqb_eq in Hv.
    destruct (p v) eqn:Hp; [|reflexivity]. now rewrite (Hbal v Hv Hp).
  - intros v. destruct (p v); [now rewrite Hid|reflexivity].
Qed.

Lemma select_balance_upsert email ip ua code fresh now d userId dU other :
  upsert_user email ip ua code fresh now d = inr (userId, dU) ->
  other <> userId ->
  select_balance other dU = select_balance other d.
Proof.
  intros Hup Hne.
  destruct (upsert_user_cases _ _ _ _ _ _ _ _ _ Hup)
    as [(u & _ & _ & Hus)|(_ & -> & _ & _ & Hus)].
  - now apply (select_balance_map_if _ _ other (users d) d dU eq_refl Hus).
  - unfold select_balance, find_user. rewrite Hus.
    destruct (find (fun u => Nat.eqb (u_id u) other) (users d)) as [v|] eqn:Hf.
    + now rewrite (find_app_some _ _ _ _ Hf).
    + rewrite (find_app_none _ _ _ Hf). cbn.
      now rewrite (proj2 (Nat.eqb_neq fresh other)) by congruence.
Qed.

(** X4.  In a state where the stored balances agree with the ledger, an
    accepted submission for an existing survey raises the stored balance of
    the account it is attributed to by exactly the survey's [reward_amount]
    (from 0.00 for an account created by the submission) and leaves the
    stored balance of every other account as it was. *)
Theorem reward_credited_exactly
        (rq : submission) (d d' : db) (r : submit_ok) (s : survey) :
  ledger_consistent d ->
  submitSurvey rq d = (inr r, d') ->
  select_survey (sb_survey_id rq) d = Some s ->
  select_balance (ok_user_id r) d'
  = Some (match select_balance (ok_user_id r) d with
          | Some b => b
          | None => 0
          end + s_reward_amount s)
  /\ (forall other, other <> ok_user_id r ->
                    select_balance other d' = select_balance other d).
Proof.
  intros [Hfk Hbal] Hrun Hs.
  destruct (submitSurvey_cases rq d)
    as [(e & He & _)|(userId & dU & ms & Hup & _ & _ & _ & Hacc)];
    [rewrite He in Hrun; discriminate|].
  rewrite Hacc, Hs in Hrun. injection Hrun as <- <-. cbn [ok_user_id].
  destruct (upsert_user_tables _ _ _ _ _ _ _ _ _ Hup) as (_ & _ & _ & _ & HtU).
  set (dS := set_user_survey_responses _ dU).
  split.
  - rewrite select_balance_reward_writes
      by (apply (upsert_user_resolves _ _ _ _ _ _ _ _ _ Hup)).
    f_equal. unfold reward_writes. cbn [transactions]. unfold dS.
    cbn [transactions set_user_survey_responses]. rewrite HtU.
    rewrite completed_ledger_sum_snoc.
    cbn [reward_transaction t_user_id t_status t_type tx_status_eqb case_amount
         is_credit t_amount].
    rewrite Nat.eqb_refl. cbn [andb]. f_equal.
    destruct (upsert_user_cases _ _ _ _ _ _ _ _ _ Hup)
      as [(u & Hfind & -> & _)|(_ & -> & Hfresh & _ & _)].
    + unfold find_user_by_email in Hfind. apply find_some in Hfind as [Hin _].
      unfold select_balance, find_user.
      destruct (find (fun v => Nat.eqb (u_id v) (u_id u)) (users d)) as [v|] eqn:Hf.
      * apply find_some in Hf as [Hv Hid]. apply Nat.eqb_eq in Hid.
        cbn. now rewrite (Hbal v Hv), Hid.
      * apply (find_none _ _ Hf) in Hin. now rewrite Nat.eqb_refl in Hin.
    + unfold select_balance, find_user.
      rewrite (proj2 (find_none_existsb _ _) Hfresh). cbn.
      now apply completed_ledger_sum_unreferenced.
  - intros other Hne.
    rewrite <- (select_balance_upsert _ _ _ _ _ _ _ _ _ other Hup Hne).
    apply (select_balance_map_if
             (fun u => Nat.eqb (u_id u) userId)
             (set_balance (completed_ledger_sum
                             (transactions dS ++ [reward_transaction userId s]) userId))
             other (users dU)); try reflexivity.
    intros v Hv Hp. apply Nat.eqb_eq in Hp. congruence.
Qed.

(** ** The survey listing *)

Lemma insert_by_id_perm (s : survey) (l : list survey) :
  Permutation (insert_by_id s l) (s :: l).
Proof.
  induction l as [|x l IH]; cbn; [reflexivity|].
  destruct (s_id s <=? s_id x); [reflexivity|].
  rewrite IH. apply perm_swap.
Qed.

Lemma order_by_id_perm (l : list survey) : Permutation (order_by_id l) l.
Proof.
  induction l as [|s l IH]; cbn; [reflexivity|].
  rewrite insert_by_id_perm. now constructor.
Qed.

Lemma insert_by_id_sorted (s : survey) (l : list survey) :
  Sorted (fun a b => s_id a <= s_id b) l ->
  Sorted (fun a b => s_id a <= s_id b) (insert_by_id s l).
Proof.
  induction 1 as [|x l Hl IH Hhd]; cbn.
  - repeat constructor.
  - destruct (Z.leb_spec (s_id s) (s_id x)) as [Hle|Hgt].
    + constructor; [now constructor|]. now constructor.
    + constructor; [exact IH|].
      destruct l as [|y l]; cbn.
      * constructor. lia.
      * destruct (Z.leb_spec (s_id s) (s_id y)); constructor; [lia|].
        now inversion Hhd.
Qed.

Lemma order_by_id_sorted (l : list survey) :
  Sorted (fun a b => s_id a <= s_id b) (order_by_id l).
Proof.
  induction l as [|s l IH]; cbn; [constructor|now apply insert_by_id_sorted].
Qed.

(** X5.  GET /api/surveys lists exactly the active surveys, each as often as
    it is in the table, in non-decreasing order of [id], and gives each the
    number of questions of [survey_questions] that refer to it; a
    deactivated survey is never listed. *)
Theorem get_surveys_lists_active_by_id (d : db) :
  Permutation (map sl_survey (get_surveys d)) (filter s_is_active (surveys d))
  /\ Sorted (fun a b => s_id a <= s_id b) (map sl_survey (get_surveys d))
  /\ (forall row, In row (get_surveys d) ->
                  In (sl_survey row) (surveys d)
                  /\ s_is_active (sl_survey row) = true
                  /\ sl_question_count row = question_count (s_id (sl_survey row)) d)
  /\ (forall s, In s (surveys d) -> s_is_active s = true ->
                In (mkSurveyListing s (question_count (s_id s) d)) (get_surveys d)).
Proof.
  assert (Hmap : map sl_survey (get_surveys d)
                 = order_by_id (filter s_is_active (surveys d))).
  { unfold get_surveys. rewrite map_map. cbn. apply map_id. }
  split; [rewrite Hmap; apply order_by_id_perm|].
  split; [rewrite Hmap; apply order_by_id_sorted|].
  split.
  - intros row Hrow. unfold get_surveys in Hrow.
    apply in_map_iff in Hrow as (s & <- & Hs). cbn.
    apply (Permutation_in _ (order_by_id_perm _)) in Hs.
    apply filter_In in Hs as [Hin Hact]. now repeat split.
  - intros s Hin Hact. unfold get_surveys.
    apply in_map_iff. exists s. split; [reflexivity|].
    apply (Permutation_in _ (Permutation_sym (order_by_id_perm _))).
    apply filter_In. now split.
Qed.

(** X6.  An accepted submission never saves more answers than the survey has
    questions: [responsesCount] is at most the [question_count] that GET
    /api/surveys reports for the survey, and it is the number of rows the
    submission added to [user_survey_responses]. *)
Theorem saved_answers_bounded (rq : submission) (d d' : db) (r : submit_ok) :
  submitSurvey rq d = (inr r, d') ->
  (ok_responses_count r <= question_count (sb_survey_id rq) d)%nat
  /\ List.length (user_survey_responses d')
     = (List.length (user_survey_responses d) + ok_responses_count r)%nat.
Proof.
  intros Hrun.
  destruct (submitSurvey_cases rq d)
    as [(e & He & _)|(userId & dU & ms & Hup & _ & Hnd & Hms & Hacc)];
    [rewrite He in Hrun; discriminate|].
  rewrite Hacc in Hrun. injection Hrun as <- <-. cbn [ok_responses_count].
  destruct (upsert_user_tables _ _ _ _ _ _ _ _ _ Hup) as (_ & HqU & HrU & _).
  split.
  - unfold question_count.
    rewrite <- (length_map (fun m => q_id (snd m)) ms).
    rewrite <- (length_map q_id (filter _ (survey_questions d))).
    apply NoDup_incl_length; [exact Hnd|].
    intros i Hi. apply in_map_iff in Hi as (m & <- & Hm).
    destruct (Hms m Hm) as (_ & Hsel & _).
    apply select_question_some in Hsel as (Hin & Hsid & _).
    apply in_map, filter_In. rewrite <- HqU. split; [exact Hin|lia].
  - destruct (select_survey (sb_survey_id rq) d); unfold reward_writes;
      cbn [user_survey_responses set_user_survey_responses];
      now rewrite length_app, length_map, HrU.
Qed.

(** ** Stored answers *)






(** ** Synthesized contact keys *)

Lemma append_cancel_l (a x y : string) :
  (a ++ x)%string = (a ++ y)%string -> x = y.
Proof. induction a as [|c a IH]; cbn; [trivial|]. intros [= H]. now apply IH. Qed.

Lemma append_length (a b : string) :
  String.length (a ++ b) = (String.length a + String.length b)%nat.
Proof. induction a as [|c a IH]; cbn; [reflexivity|now rewrite IH]. Qed.

Lemma append_cancel_r (x y t : string) :
  (x ++ t)%string = (y ++ t)%string -> x = y.
Proof.
  revert y. induction x as [|c x IH]; intros [|c' y] H; cbn in H.
  - reflexivity.
  - apply (f_equal String.length) in H. cbn in H. rewrite append_length in H. lia.
  - apply (f_equal String.length) in H. cbn in H. rewrite append_length in H. lia.
  - injection H as -> H. f_equal. now apply IH.
Qed.

(** X9.  Two synthesized contact keys are equal exactly when they were made
    at the same clock reading from addresses that agree once their dots are
    removed: distinct readings always give distinct keys, while at one
    reading addresses such as 1.23.4.5 and 12.3.4.5 give the same key. *)
Theorem synth_email_equal_iff (t1 t2 : N) (ip1 ip2 : string) :
  synth_email t1 ip1 = synth_email t2 ip2
  <-> t1 = t2 /\ remove_dots ip1 = remove_dots ip2.
Proof.
  split.
  - intros H. pose proof (synth_email_injective _ _ _ _ H) as ->.
    split; [reflexivity|].
    unfold synth_email in H.
    apply append_cancel_l in H. apply append_cancel_l in H.
    apply append_cancel_l in H. now apply append_cancel_r in H.
  - intros [-> Hip]. unfold synth_email. now rewrite Hip.
Qed.

(** ** The stored procedures of part_001 *)


Lemma sum_cons (x : Z) (l : list Z) : sum (x :: l) = x + sum l.
Proof. reflexivity. Qed.

Lemma completed_ledger_sum_by_kind (ts : list transaction) (user_uuid : uuid) :
  completed_ledger_sum ts user_uuid
  = sum (Schema001.completed_of ts user_uuid is_credit)
    - sum (Schema001.completed_of ts user_uuid is_withdrawal).
Proof.
  unfold completed_ledger_sum, Schema001.completed_of.
  induction ts as [|t ts IH]; [reflexivity|].
  assert (Hca : case_amount t
                = if is_credit (t_type t) then t_amount t
                  else if is_withdrawal (t_type t) then - t_amount t else 0)
    by reflexivity.
  cbn [filter].
  destruct (Nat.eqb (t_user_id t) user_uuid),
    (tx_status_eqb (t_status t) completed); cbn [andb]; try exact IH;
    try (now rewrite !andb_false_r).
  destruct (t_type t); cbn [is_credit is_withdrawal] in *;
    cbn [andb map]; rewrite ?sum_cons, ?Hca; lia.
Qed.

(** X11.  [get_user_balance] of part_001 subtracts two sums that are NULL
    when empty: it returns the completed credits minus the completed
    withdrawals only for an account that has at least one completed credit
    and at least one completed withdrawal, and 0.00 for every other account,
    whatever its credits. *)
Theorem legacy_balance_needs_both_sides (ts : list transaction) (user_uuid : uuid) :
  Schema001.get_user_balance ts user_uuid
  = match Schema001.completed_of ts user_uuid is_credit,
          Schema001.completed_of ts user_uuid is_withdrawal with
    | _ :: _, _ :: _ => completed_ledger_sum ts user_uuid
    | _, _ => 0
    end.
Proof.
  rewrite completed_ledger_sum_by_kind. unfold Schema001.get_user_balance.
  destruct (Schema001.completed_of ts user_uuid is_credit) as [|c cs];
    destruct (Schema001.completed_of ts user_uuid is_withdrawal) as [|w ws];
    reflexivity.
Qed.

(** ** The admin statistics *)

Lemma sum_map_add {A} (f g : A -> Z) (l : list A) :
  sum (map (fun x => f x + g x) l) = sum (map f l) + sum (map g l).
Proof. induction l as [|x l IH]; [reflexivity|]. cbn [map]. rewrite !sum_cons, IH. lia. Qed.

Lemma sum_map_ext {A} (f g : A -> Z) (l : list A) :
  (forall x, In x l -> f x = g x) -> sum (map f l) = sum (map g l).
Proof.
  induction l as [|x l IH]; intros H; [reflexivity|]. cbn [map].
  rewrite !sum_cons, (H x (or_introl eq_refl)), IH; [reflexivity|].
  intros y Hy. apply H. now right.
Qed.

Lemma sum_map_zero {A} (l : list A) : sum (map (fun _ => 0) l) = 0.
Proof. induction l as [|x l IH]; [reflexivity|]. cbn [map]. now rewrite sum_cons, IH. Qed.

(** An amount booked on one id is counted once over accounts with pairwise
    distinct ids. *)
Lemma sum_over_owner (x : uuid) (c : Z) (us : list user) :
  NoDup (map u_id us) ->
  existsb (fun u => Nat.eqb (u_id u) x) us = true ->
  sum (map (fun u => if Nat.eqb x (u_id u) then c else 0) us) = c.
Proof.
  induction us as [|u us IH]; cbn [map existsb]; intros Hnd Hex; [discriminate|].
  inversion Hnd as [|? ? Hnotin Hnd']; subst. rewrite sum_cons.
  destruct (Nat.eqb_spec x (u_id u)) as [->|Hne].
  - rewrite (sum_map_ext _ (fun _ => 0)), sum_map_zero; [lia|].
    intros v Hv. destruct (Nat.eqb_spec (u_id u) (u_id v)) as [E|_]; [|reflexivity].
    elim Hnotin. rewrite E. now apply in_map.
  - rewrite (proj2 (Nat.eqb_neq (u_id u) x)) in Hex by congruence.
    cbn in Hex. rewrite (IH Hnd' Hex). lia.
Qed.

Lemma completed_total_over_users (d : db) :
  fk_transactions d -> NoDup (map u_id (users d)) ->
  sum (map (fun u => completed_ledger_sum (transactions d) (u_id u)) (users d))
  = sum (map case_amount
             (filter (fun t => tx_status_eqb (t_status t) completed) (transactions d))).
Proof.
  unfold fk_transactions. generalize (users d) as us. intros us.
  induction (transactions d) as [|t ts IH]; intros Hfk Hnd.
  - unfold completed_ledger_sum. cbn. apply sum_map_zero.
  - rewrite (sum_map_ext _
               (fun u => (if Nat.eqb (t_user_id t) (u_id u)
                          then (if tx_status_eqb (t_status t) completed
                                then case_amount t else 0)
                          else 0)
                         + completed_ledger_sum ts (u_id u))).
    + rewrite (sum_map_add
                 (fun u => if Nat.eqb (t_user_id t) (u_id u)
                           then (if tx_status_eqb (t_status t) completed
                                 then case_amount t else 0)
                           else 0)
                 (fun u => completed_ledger_sum ts (u_id u))).
      eapply eq_trans;
        [apply (f_equal2 Z.add);
         [apply sum_over_owner;
          [exact Hnd|exact (Hfk t (or_introl eq_refl))]
         |apply IH; [intros t' Ht'; apply Hfk; now right|exact Hnd]]|].
      cbn [filter]. destruct (tx_status_eqb (t_status t) completed);
        [cbn [map]; now rewrite sum_cons|apply Z.add_0_l].
    + intros u _. rewrite !completed_ledger_sum_where, ledger_sum_where_cons.
      now destruct (Nat.eqb (t_user_id t) (u_id u)),
        (tx_status_eqb (t_status t) completed).
Qed.

Lemma completed_total_by_kind (ts : list transaction) :
  sum (map case_amount (filter (fun t => tx_status_eqb (t_status t) completed) ts))
  = completed_amounts is_credit ts - completed_amounts is_withdrawal ts.
Proof.
  unfold completed_amounts.
  induction ts as [|t ts IH]; [reflexivity|].
  assert (Hca : case_amount t
                = if is_credit (t_type t) then t_amount t
                  else if is_withdrawal (t_type t) then - t_amount t else 0)
    by reflexivity.
  cbn [filter].
  destruct (tx_status_eqb (t_status t) completed);
    [|now rewrite !andb_false_r].
  destruct (t_type t); cbn [is_credit is_withdrawal] in *;
    cbn [andb map]; rewrite ?sum_cons, ?Hca; lia.
Qed.

(** X12.  The admin statistics balance with the accounts: in every state
    reached through the routes from a state where balances agree with the
    ledger and account ids are unique, the stored balances of all accounts
    add up to [total_rewards_paid] minus [total_withdrawals] of the view
    [admin_stats]. *)
Theorem admin_stats_balance_the_accounts (rs : list request) (d : db) :
  ledger_consistent d ->
  users_unique d ->
  let d' := run_requests rs d in
  sum (map u_balance (users d'))
  = st_total_rewards_paid (admin_stats d') - st_total_withdrawals (admin_stats d').
Proof.
  intros Hd Hu d'.
  destruct (ledger_consistent_run rs d Hd) as [Hfk Hbal].
  destruct (users_unique_run rs d Hu) as (Hid & _).
  fold d' in Hfk, Hbal, Hid.
  eapply eq_trans; [apply sum_map_ext; exact Hbal|].
  eapply eq_trans; [exact (completed_total_over_users d' Hfk Hid)|].
  apply completed_total_by_kind.
Qed.

(** ** The ledger the routes write *)

Lemma submit_ledger (rq : submission) (d : db) :
  let d' := snd (submitSurvey rq d) in
  withdrawal_requests d' = withdrawal_requests d
  /\ (transactions d' = transactions d
      \/ exists userId s, transactions d' = transactions d ++ [reward_transaction userId s]).
Proof.
  cbn zeta.
  destruct (submitSurvey_cases rq d)
    as [(e & -> & _)|(userId & dU & ms & Hup & _ & _ & _ & ->)]; [now split; [|left]|].
  apply upsert_user_frame in Hup. rewrite Hup. cbn [snd].
  destruct (select_survey (sb_survey_id rq) d) as [s|]; unfold reward_writes;
    cbn [transactions withdrawal_requests set_users set_user_survey_responses];
    (split; [reflexivity|]); [right; now exists userId, s|now left].
Qed.

Lemma withdrawal_ledger (rq : withdrawal_body) (d : db) :
  let d' := snd (requestWithdrawal rq d) in
  (transactions d' = transactions d /\ withdrawal_requests d' = withdrawal_requests d)
  \/ (exists p, wb_paypal_email rq = Some p
                /\ transactions d' = transactions d ++ [withdrawal_transaction rq]
                /\ withdrawal_requests d'
                   = withdrawal_requests d
                       ++ [mkWithdrawal (wb_user_id rq) (wb_amount rq) p pending]).
Proof.
  cbn zeta. rewrite requestWithdrawal_eq.
  destruct (withdrawal_decision _ rq); [now left|].
  destruct (wb_paypal_email rq) as [p|]; [|now left].
  right. exists p. now repeat split.
Qed.

Lemma route_entries_run (rs : list request) (d : db) :
  Forall route_entry (transactions d) ->
  Forall route_entry (transactions (run_requests rs d)).
Proof.
  revert d. induction rs as [|r rs IH]; intros d Hd; [exact Hd|].
  cbn. apply IH. destruct r as [rq|rq]; cbn [handle].
  - destruct (submit_ledger rq d) as (_ & [-> |(userId & s & ->)]); [exact Hd|].
    apply Forall_app. split; [exact Hd|]. constructor; [|constructor].
    left. now split.
  - destruct (withdrawal_ledger rq d) as [(-> & _)|(p & _ & -> & _)]; [exact Hd|].
    apply Forall_app. split; [exact Hd|]. constructor; [|constructor].
    right. now split.
Qed.

Lemma requests_paired_run (rs : list request) (d : db) :
  requests_paired d -> requests_paired (run_requests rs d).
Proof.
  revert d. induction rs as [|r rs IH]; intros d Hd; [exact Hd|].
  cbn. apply IH. unfold requests_paired in *. destruct r as [rq|rq]; cbn [handle].
  - destruct (submit_ledger rq d) as (-> & [-> |(userId & s & ->)]); [exact Hd|].
    rewrite filter_app. cbn. now rewrite app_nil_r.
  - destruct (withdrawal_ledger rq d) as [(-> & ->)|(p & Hp & -> & ->)]; [exact Hd|].
    rewrite filter_app, !map_app, Hd. cbn.
    unfold request_of_entry, request_of_row. cbn. now rewrite Hp.
Qed.

Lemma get_user_balance_route_entries (ts : list transaction) (userId : uuid) :
  Forall route_entry ts ->
  Schema.get_user_balance ts userId
  = completed_ledger_sum ts userId - requested_total ts userId.
Proof.
  unfold Schema.get_user_balance, requested_total.
  induction 1 as [|t ts Ht _ IH]; [reflexivity|].
  rewrite completed_ledger_sum_where, ledger_sum_where_cons,
    <- completed_ledger_sum_where.
  cbn [filter]. destruct (Nat.eqb (t_user_id t) userId); cbn [andb]; [|lia].
  assert (Hca : case_amount t
                = if is_credit (t_type t) then t_amount t
                  else if is_withdrawal (t_type t) then - t_amount t else 0)
    by reflexivity.
  destruct Ht as [[Hty Hst]|[Hty Hst]]; rewrite Hty in *; rewrite Hst;
    cbn [tx_type_eqb tx_status_eqb is_credit is_withdrawal] in *;
    cbn [map]; rewrite ?sum_cons, ?Hca; lia.
Qed.

(** X13.  What the dashboard shows against what the withdrawal route checks.
    In every state reached through the routes (from a state where balances
    agree with the ledger and the ledger holds only entries such as the
    routes write), the [current_balance] of the view [user_dashboard] is the
    stored balance of the account minus the amounts of all its withdrawal
    requests: the view deducts the pending requests, which the stored
    balance does not. *)
Theorem dashboard_balance_deducts_requests (rs : list request) (d : db) (u : user) :
  ledger_consistent d ->
  Forall route_entry (transactions d) ->
  In u (users (run_requests rs d)) ->
  dash_current_balance (dashboard_of (run_requests rs d) u)
  = u_balance u - requested_total (transactions (run_requests rs d)) (u_id u).
Proof.
  intros Hd Hre Hu.
  destruct (ledger_consistent_run rs d Hd) as [_ Hbal].
  cbn [dashboard_of dash_current_balance].
  rewrite (Hbal u Hu).
  apply get_user_balance_route_entries. now apply route_entries_run.
Qed.

Lemma map_eq_Forall {A B C} (f : A -> C) (g : B -> C) (P : C -> Prop)
      (l : list A) (l' : list B) :
  map f l = map g l' -> Forall (fun a => P (f a)) l -> Forall (fun b => P (g b)) l'.
Proof.
  revert l'. induction l as [|a l IH]; intros [|b l'] E H; try discriminate;
    [constructor|].
  cbn in E. injection E as E1 E2. inversion H; subst.
  constructor; [now rewrite <- E1|now apply IH].
Qed.

Lemma completed_amounts_zero (kind : tx_type -> bool) (ts : list transaction) :
  Forall (fun t => kind (t_type t) && tx_status_eqb (t_status t) completed = false) ts ->
  completed_amounts kind ts = 0.
Proof.
  unfold completed_amounts. induction 1 as [|t ts Ht _ IH]; [reflexivity|].
  cbn [filter]. now rewrite Ht.
Qed.

Lemma filter_all {A} (p : A -> bool) (l : list A) :
  Forall (fun a => p a = true) l -> filter p l = l.
Proof.
  induction 1 as [|a l Ha _ IH]; [reflexivity|]. cbn. now rewrite Ha, IH.
Qed.

(** X14.  No route settles a withdrawal.  In every state reached through
    the routes (from a state whose ledger holds only entries such as the
    routes write, each withdrawal request paired with its row), the rows of
    [withdrawal_requests] still pair with the [withdrawal_request] entries
    of the ledger, every one of them has status pending, so that
    [pending_withdrawals] of [admin_stats] counts all requests ever
    accepted, and [total_withdrawals] is zero. *)
Theorem withdrawals_are_never_settled (rs : list request) (d : db) :
  Forall route_entry (transactions d) ->
  requests_paired d ->
  let d' := run_requests rs d in
  requests_paired d'
  /\ Forall (fun w => w_status w = pending) (withdrawal_requests d')
  /\ st_pending_withdrawals (admin_stats d') = List.length (withdrawal_requests d')
  /\ st_total_withdrawals (admin_stats d') = 0.
Proof.
  intros Hre Hp d'.
  pose proof (route_entries_run rs d Hre) as Hre'.
  pose proof (requests_paired_run rs d Hp) as Hp'.
  fold d' in Hre', Hp'.
  assert (Hpend : Forall (fun w => w_status w = pending) (withdrawal_requests d')).
  { apply (map_eq_Forall request_of_entry request_of_row
             (fun x => snd x = pending) _ _ Hp').
    apply Forall_forall. intros t Ht. apply filter_In in Ht as [Hin Hty].
    rewrite Forall_forall in Hre'.
    destruct (Hre' t Hin) as [[E _]|[_ E]]; [now rewrite E in Hty|exact E]. }
  split; [exact Hp'|]. split; [exact Hpend|]. split.
  - cbn [admin_stats st_pending_withdrawals]. f_equal. apply filter_all.
    eapply Forall_impl; [|exact Hpend]. cbn. now intros w ->.
  - cbn [admin_stats st_total_withdrawals]. apply completed_amounts_zero.
    eapply Forall_impl; [|exact Hre']. cbn.
    intros t [[-> _]|[_ ->]]; [reflexivity|apply andb_false_r].
Qed.

(** ** The stored procedures of part_001 *)








Lemma existsb_code_in (x : string) (us : list user) :
  existsb (fun u => (u_referral_code u =? x)%string) us = true
  <-> In x (map u_referral_code us).
Proof.
  split.
  - intros H. apply existsb_exists in H as (u & Hu & E).
    apply String.eqb_eq in E. rewrite <- E. now apply in_map.
  - intros H. apply in_map_iff in H as (u & <- & Hu).
    apply existsb_exists. exists u. split; [exact Hu|apply String.eqb_refl].
Qed.

(** X17.  [generate_unique_referral_code] returns the first drawn code that
    no account carries: it returns [c] exactly when [c] is drawn after draws
    that are all in use and is itself not in use, and it is still looping
    exactly when every draw is in use.  The trigger [set_referral_code]
    calls it only for a missing or empty code, so the code the submit route
    supplies reaches the table as it is, without the uniqueness test of the
    generator. *)
Theorem referral_code_generator (draws : list string) (d : db) :
  (forall c,
      generate_unique_referral_code draws d = Some c
      <-> exists used rest,
            draws = used ++ c :: rest
            /\ (forall x, In x used -> In x (map u_referral_code (users d)))
            /\ ~ In c (map u_referral_code (users d)))
  /\ (generate_unique_referral_code draws d = None
      <-> forall x, In x draws -> In x (map u_referral_code (users d)))
  /\ (forall rq, set_referral_code (Some (referralCode rq)) draws d
                 = Some (referralCode rq)).
Proof.
  split; [|split].
  - induction draws as [|x draws IH]; intros c; cbn [generate_unique_referral_code].
    + split; [discriminate|]. intros (used & rest & E & _).
      now destruct used.
    + destruct (existsb _ (users d)) eqn:Hex.
      * apply existsb_code_in in Hex. rewrite IH. split.
        -- intros (used & rest & -> & Hused & Hfree).
           exists (x :: used), rest. split; [reflexivity|]. split; [|exact Hfree].
           intros y [<-|Hy]; [exact Hex|now apply Hused].
        -- intros (used & rest & E & Hused & Hfree).
           destruct used as [|y used]; cbn in E; injection E as -> ->.
           ++ now elim Hfree.
           ++ exists used, rest. split; [reflexivity|]. split; [|exact Hfree].
              intros z Hz. apply Hused. now right.
      * pose proof (existsb_code_notin _ _ Hex) as Hfree. split.
        -- intros E. injection E as <-. exists [], draws. now repeat split.
        -- intros (used & rest & E & Hused & _).
           destruct used as [|y used]; cbn in E; injection E as -> ->;
             [reflexivity|].
           elim Hfree. apply Hused. now left.
  - induction draws as [|x draws IH]; cbn [generate_unique_referral_code].
    + split; [intros _ x []|reflexivity].
    + destruct (existsb _ (users d)) eqn:Hex.
      * apply existsb_code_in in Hex. rewrite IH. split.
        -- intros H y [<-|Hy]; [exact Hex|now apply H].
        -- intros H y Hy. apply H. now right.
      * split; [discriminate|]. intros H.
        elim (existsb_code_notin _ _ Hex). apply H. now left.
  - intros rq. reflexivity.
Qed.

(** ** The withdrawal route of part_000 *)


(** ** Anonymous submissions away from code collisions *)


(** ** The further properties on concrete states *)

Lemma alice_db_consistent : ledger_consistent Ex.alice_db.
Proof.
  split.
  - intros t [<-|[]]. reflexivity.
  - intros u [<-|[]]. reflexivity.
Qed.

Lemma alice_db_route_entries : Forall route_entry (transactions Ex.alice_db).
Proof. constructor; [left; now split|constructor]. Qed.

Lemma users_stay_unique_witness :
  NoDup (map u_id (users (run_requests Ex.day Ex.alice_db)))
  /\ NoDup (map u_email (users (run_requests Ex.day Ex.alice_db)))
  /\ NoDup (map u_referral_code (users (run_requests Ex.day Ex.alice_db))).
Proof.
  apply (users_stay_unique Ex.day Ex.alice_db); cbn; nodup_list.
Defined.

Lemma completions_and_answers_stay_unique_witness :
  completions_unique (run_requests Ex.day Ex.alice_db)
  /\ responses_unique (run_requests Ex.day Ex.alice_db).
Proof.
  apply (completions_and_answers_stay_unique Ex.day Ex.alice_db);
    unfold completions_unique, responses_unique; cbn; nodup_list.
Defined.

Lemma reward_credited_exactly_witness :
  select_balance 8%nat (snd (submitSurvey Ex.bob_submission Ex.alice_db))
  = Some (match select_balance 8%nat Ex.alice_db with
          | Some b => b
          | None => 0
          end + 500)
  /\ (forall other, other <> 8%nat ->
        select_balance other (snd (submitSurvey Ex.bob_submission Ex.alice_db))
        = select_balance other Ex.alice_db).
Proof.
  apply (reward_credited_exactly Ex.bob_submission Ex.alice_db
           (snd (submitSurvey Ex.bob_submission Ex.alice_db))
           (mkSubmitOk 8%nat 1%nat) Ex.main_survey).
  - exact alice_db_consistent.
  - vm_compute. reflexivity.
  - reflexivity.
Defined.

Lemma saved_answers_bounded_witness :
  (1 <= question_count 1 Ex.alice_db)%nat
  /\ List.length (user_survey_responses
                    (snd (submitSurvey Ex.bob_submission Ex.alice_db)))
     = (List.length (user_survey_responses Ex.alice_db) + 1)%nat.
Proof.
  apply (saved_answers_bounded Ex.bob_submission Ex.alice_db
           (snd (submitSurvey Ex.bob_submission Ex.alice_db))
           (mkSubmitOk 8%nat 1%nat)).
  vm_compute. reflexivity.
Defined.



Lemma admin_stats_balance_the_accounts_witness :
  sum (map u_balance (users (run_requests Ex.day Ex.alice_db)))
  = st_total_rewards_paid (admin_stats (run_requests Ex.day Ex.alice_db))
    - st_total_withdrawals (admin_stats (run_requests Ex.day Ex.alice_db)).
Proof.
  apply (admin_stats_balance_the_accounts Ex.day Ex.alice_db).
  - exact alice_db_consistent.
  - unfold users_unique; cbn; repeat split; nodup_list.
Defined.

Lemma dashboard_balance_deducts_requests_witness :
  dash_current_balance
    (dashboard_of (run_requests [Withdraw Ex.withdraw_5] Ex.alice_db) Ex.alice)
  = u_balance Ex.alice
    - requested_total
        (transactions (run_requests [Withdraw Ex.withdraw_5] Ex.alice_db))
        (u_id Ex.alice).
Proof.
  apply (dashboard_balance_deducts_requests [Withdraw Ex.withdraw_5] Ex.alice_db
           Ex.alice).
  - exact alice_db_consistent.
  - exact alice_db_route_entries.
  - vm_compute. left. reflexivity.
Defined.

Lemma withdrawals_are_never_settled_witness :
  requests_paired (run_requests Ex.day Ex.alice_db)
  /\ Forall (fun w => w_status w = pending)
            (withdrawal_requests (run_requests Ex.day Ex.alice_db))
  /\ st_pending_withdrawals (admin_stats (run_requests Ex.day Ex.alice_db))
     = List.length (withdrawal_requests (run_requests Ex.day Ex.alice_db))
  /\ st_total_withdrawals (admin_stats (run_requests Ex.day Ex.alice_db)) = 0.
Proof.
  apply (withdrawals_are_never_settled Ex.day Ex.alice_db).
  - exact alice_db_route_entries.
  - reflexivity.
Defined.



